(** * BatteryGuardian: the battery daemon's aggregation and notification logic

    A shallow embedding of [battery_daemon.py]: the capacity-weighted
    aggregation of [battery_info], the persisted notification state
    ([read_state], [write_state], [clear_state]), the hysteresis step of
    [one_iteration] and the poll loop [daemon_loop].

    Python floats are IEEE 754 binary64 numbers and are modelled by Rocq's
    primitive floats, which are the same numbers with the same rounding;
    Python ints are unbounded and are modelled by [Z]. A [string] is a
    Python [str] of code points below 256, one code point per character:
    text with other code points is outside what the file speaks of. *)

From Stdlib Require Import ZArith List String Ascii Bool Lia.
From Stdlib Require Import Floats.
Import ListNotations.

Local Open Scope string_scope.
Local Open Scope list_scope.
Local Open Scope Z_scope.

(** ** Exceptions and results *)

(** The exception classes the modelled code can raise. *)
Inductive exn : Type :=
| RuntimeError      (* "No battery devices found under /sys/class/power_supply" *)
| ValueError        (* round(nan) *)
| OverflowError     (* round(inf), or an int too large for a float *)
| ZeroDivisionError (* float division by zero *)
| TypeError         (* os.path.join(None, "state") *)
| OSError.          (* a failed file system call *)

(** A computation either raises or returns. *)
Inductive result (A : Type) : Type :=
| Raise (e : exn)
| Return (a : A).
Arguments Raise {A} e.
Arguments Return {A} a.

Definition bind {A B : Type} (m : result A) (k : A -> result B) : result B :=
  match m with
  | Raise e => Raise e
  | Return a => k a
  end.

Notation "x <- m ;; k" := (bind m (fun x => k))
  (at level 61, m at next level, right associativity).

(** [try: m except Exception: h]. *)
Definition try_except {A : Type} (m : result A) (h : result A) : result A :=
  match m with
  | Raise _ => h
  | Return a => Return a
  end.

Definition returned {A : Type} (m : result A) : bool :=
  match m with
  | Raise _ => false
  | Return _ => true
  end.

(** ** Python numbers *)

Module Py.

(** Truth value of a float: everything but [0.0] and [-0.0] (NaN is true). *)
Definition float_truthy (x : float) : bool := negb (PrimFloat.eqb x 0%float).

(** [a or b] on two [Optional[float]] values. *)
Definition float_or (a b : option float) : option float :=
  match a with
  | Some x => if float_truthy x then a else b
  | None => b
  end.

(** Truth value of an [Optional[float]]. *)
Definition opt_float_truthy (a : option float) : bool :=
  match a with
  | Some x => float_truthy x
  | None => false
  end.

(** Conversion of an int to a float, as done by [float(n)] and by mixed
    arithmetic: correctly rounded, [OverflowError] beyond the float range. *)
Definition float_of_int (n : Z) : result float :=
  let x := SF2Prim (binary_normalize prec emax n 0 false) in
  if PrimFloat.is_infinity x then Raise OverflowError else Return x.

(** Float division: [ZeroDivisionError] on a zero divisor, IEEE otherwise. *)
Definition float_div (a b : float) : result float :=
  if PrimFloat.eqb b 0%float then Raise ZeroDivisionError
  else Return (PrimFloat.div a b).

(** The integer nearest to [m * 2^e], ties to the even one. *)
Definition round_half_even (m e : Z) : Z :=
  if 0 <=? e then m * 2 ^ e
  else
    let d := 2 ^ (- e) in
    let q := m / d in
    let r := m mod d in
    match 2 * r ?= d with
    | Lt => q
    | Gt => q + 1
    | Eq => if Z.even q then q else q + 1
    end.

(** [round(x)] with one argument: an int, [ValueError] on NaN and
    [OverflowError] on an infinity. *)
Definition round (x : float) : result Z :=
  match Prim2SF x with
  | S754_nan => Raise ValueError
  | S754_infinity _ => Raise OverflowError
  | S754_zero _ => Return 0
  | S754_finite s m e => Return (cond_Zopp s (round_half_even (Zpos m) e))
  end.

(** [str.lower] on one character and on a string: the upper-case letters
    below code point 256 are A-Z, U+00C0-U+00D6 and U+00D8-U+00DE, each 32
    below its lower-case letter. *)
Definition lower_ascii (c : ascii) : ascii :=
  let n := nat_of_ascii c in
  if ((65 <=? n)%nat && (n <=? 90)%nat)
     || ((192 <=? n)%nat && (n <=? 214)%nat)
     || ((216 <=? n)%nat && (n <=? 222)%nat)
  then ascii_of_nat (n + 32) else c.

Fixpoint lower (s : string) : string :=
  match s with
  | EmptyString => EmptyString
  | String c s' => String (lower_ascii c) (lower s')
  end.

(** The characters [str.strip] removes, those [str.isspace] accepts: below
    code point 256 they are U+0009-U+000D, U+001C-U+0020, U+0085 and
    U+00A0. *)
Definition is_space (c : ascii) : bool :=
  let n := nat_of_ascii c in
  ((9 <=? n)%nat && (n <=? 13)%nat) || ((28 <=? n)%nat && (n <=? 32)%nat)
  || (n =? 133)%nat || (n =? 160)%nat.

Fixpoint lstrip (s : string) : string :=
  match s with
  | EmptyString => EmptyString
  | String c s' => if is_space c then lstrip s' else s
  end.

Fixpoint rstrip (s : string) : string :=
  match s with
  | EmptyString => EmptyString
  | String c s' =>
      match rstrip s' with
      | EmptyString => if is_space c then EmptyString else String c EmptyString
      | t => String c t
      end
  end.

Definition strip (s : string) : string := rstrip (lstrip s).

(** Truth value of a string: non-empty. *)
Definition str_truthy (s : string) : bool :=
  match s with
  | EmptyString => false
  | String _ _ => true
  end.

End Py.

(** ** Battery discovery and reading *)

(** What the reads of one battery directory return (lines 137-147):
    [read_float_file] and [read_int_file] give [None] on any failure, and
    [raw_status] is the stripped content of the [status] file, [None] when
    reading it raised. *)
Record BatteryDir : Type := {
  file_energy_now : option float;
  file_charge_now : option float;
  file_energy_full : option float;
  file_charge_full : option float;
  file_capacity : option Z;
  raw_status : option string
}.

(** One device's reading as the loop body uses it. *)
Record DeviceReading : Type := {
  energy_now : option float;
  energy_full : option float;
  capacity : option Z;
  status : option string
}.

Definition read_device (p : BatteryDir) : DeviceReading :=
  {| energy_now := Py.float_or (file_energy_now p) (file_charge_now p);
     energy_full := Py.float_or (file_energy_full p) (file_charge_full p);
     capacity := file_capacity p;
     status := match raw_status p with
               | Some s => if Py.str_truthy s then Some s else None
               | None => None
               end |}.

(** The accumulators of the loop in [battery_info]. *)
Record Acc : Type := {
  total_energy : float;
  total_capacity_weight : float;
  statuses : list string;
  capacities : list Z
}.

Definition acc0 : Acc :=
  {| total_energy := 0%float;
     total_capacity_weight := 0%float;
     statuses := [];
     capacities := [] |}.

(** One round of the loop, from [if status:] on. *)
Definition accumulate (a : Acc) (d : DeviceReading) : result Acc :=
  let statuses' :=
    match status d with
    | Some s => if Py.str_truthy s then statuses a ++ [s] else statuses a
    | None => statuses a
    end in
  match energy_now d, Py.opt_float_truthy (energy_full d), energy_full d with
  | Some en, true, Some ef =>
      pct <- try_except
               (q <- Py.float_div en ef ;; Return (PrimFloat.mul q 100%float))
               (match capacity d with
                | Some c => Py.float_of_int c
                | None => Return 0%float
                end) ;;
      Return {| total_energy := PrimFloat.add (total_energy a) (PrimFloat.mul pct ef);
                total_capacity_weight := PrimFloat.add (total_capacity_weight a) ef;
                statuses := statuses';
                capacities := capacities a |}
  | _, _, _ =>
      match capacity d with
      | Some c =>
          fc <- Py.float_of_int c ;;
          Return {| total_energy := PrimFloat.add (total_energy a) fc;
                    total_capacity_weight := PrimFloat.add (total_capacity_weight a) 1%float;
                    statuses := statuses';
                    capacities := capacities a ++ [c] |}
      | None =>
          Return {| total_energy := PrimFloat.add (total_energy a) 0%float;
                    total_capacity_weight := PrimFloat.add (total_capacity_weight a) 1%float;
                    statuses := statuses';
                    capacities := capacities a |}
      end
  end.

Fixpoint accumulate_all (a : Acc) (ds : list DeviceReading) : result Acc :=
  match ds with
  | [] => Return a
  | d :: ds' => a' <- accumulate a d ;; accumulate_all a' ds'
  end.

(** The overall percentage (lines 171-175). *)
Definition overall_pct (a : Acc) : result Z :=
  if PrimFloat.ltb 0%float (total_capacity_weight a) then
    q <- Py.float_div (total_energy a) (total_capacity_weight a) ;;
    Py.round q
  else
    Return (match capacities a with
            | c :: _ => c
            | [] => 0
            end).

(** The overall status (lines 177-187): Charging > Discharging > Full,
    then the first status seen, then "Unknown". *)
Definition overall_status (sts : list string) : string :=
  if existsb (fun s => String.eqb (Py.lower s) "charging") sts then "Charging"
  else if existsb (fun s => String.eqb (Py.lower s) "discharging") sts then "Discharging"
  else if existsb (fun s => String.eqb (Py.lower s) "full") sts then "Full"
  else match sts with
       | s :: _ => s
       | [] => "Unknown"
       end.

(** The reduction of [battery_info] over the readings of the devices found. *)
Definition aggregate (ds : list DeviceReading) : result (Z * string) :=
  match ds with
  | [] => Raise RuntimeError
  | _ =>
      a <- accumulate_all acc0 ds ;;
      pct <- overall_pct a ;;
      Return (pct, overall_status (statuses a))
  end.

(** [battery_info], given what [find_battery_paths] and the file reads see. *)
Definition battery_info (paths : list BatteryDir) : result (Z * string) :=
  aggregate (map read_device paths).

(** A device that reports energy figures only. *)
Definition energy_device (en ef : float) : DeviceReading :=
  {| energy_now := Some en; energy_full := Some ef;
     capacity := None; status := None |}.

(** A device that reports a capacity percentage and a status only. *)
Definition capacity_device (c : Z) (s : string) : DeviceReading :=
  {| energy_now := None; energy_full := None;
     capacity := Some c; status := Some s |}.

(** ** State handling *)

(** The state file as the file system holds it, with what the calls on it
    would do: [content] is [None] when there is no such file. *)
Record StateFile : Type := {
  content : option string;
  readable : bool;   (* open(path, "r") and f.read() succeed *)
  writable : bool;   (* makedirs, open(tmp, "w"), f.write and os.replace succeed *)
  removable : bool   (* os.remove succeeds *)
}.

Definition with_content (f : StateFile) (c : option string) : StateFile :=
  {| content := c; readable := readable f;
     writable := writable f; removable := removable f |}.

(** [read_state]: every failure reads as "none". *)
Definition read_state (f : StateFile) : string :=
  match content f with
  | Some s => if readable f then Py.strip s else "none"
  | None => "none"
  end.

(** [write_state]: nothing is caught, and [os.replace] is atomic. The
    file it puts in place is the [state.tmp] it has just created, which
    can be read whatever the one it replaces was. *)
Definition write_state (f : StateFile) (value : string) : result StateFile :=
  if writable f
  then Return {| content := Some value; readable := true;
                 writable := writable f; removable := removable f |}
  else Raise OSError.

(** [clear_state]: every failure is swallowed. *)
Definition clear_state (f : StateFile) : StateFile :=
  match content f with
  | Some _ => if removable f then with_content f None else f
  | None => f
  end.



(** ** One poll cycle *)

Inductive Kind : Type := High | Low.

(** The branch of lines 324-351 that a reading and a state token select. *)
Inductive Decision : Type :=
| NotifyHigh    (* notify, then write_state(state_file, "notified_high") *)
| NotifyLow     (* notify, then write_state(state_file, "notified_low") *)
| ResetState    (* clear_state(state_file) *)
| NoChange.     (* logging.debug only, or nothing *)

Definition decide (pct : Z) (status : string) (low high : Z)
    (current_state : string) : Decision :=
  if String.eqb status "Charging" && (high <=? pct) then
    if negb (String.eqb current_state "notified_high") then NotifyHigh
    else NoChange
  else if String.eqb status "Discharging" && (pct <=? low) then
    if negb (String.eqb current_state "notified_low") then NotifyLow
    else NoChange
  else if (low <? pct) && (pct <? high) then
    if negb (String.eqb current_state "none") then ResetState
    else NoChange
  else NoChange.

(** The notification a decision sends, if any. *)
Definition action (d : Decision) : option Kind :=
  match d with
  | NotifyHigh => Some High
  | NotifyLow => Some Low
  | ResetState | NoChange => None
  end.

(** The token [read_state] gives next, once the decision's call on the
    state file has succeeded. *)
Definition state_after (current_state : string) (d : Decision) : string :=
  match d with
  | NotifyHigh => "notified_high"
  | NotifyLow => "notified_low"
  | ResetState => "none"
  | NoChange => current_state
  end.

(** What a cycle does to the outside world, in order. *)
Inductive Event : Type :=
| LogError (e : exn)                    (* "Failed reading battery info" *)
| Notified (k : Kind) (pct threshold : Z)  (* notify_send, notify_sound, notify_telegram *)
| StateWritten (value : string)         (* write_state returned *)
| StateCleared.                         (* clear_state was called *)

Record Outcome : Type := {
  events : list Event;
  file : StateFile;
  raised : option exn
}.

(** Lines 322-351: read the state, then notify, write, clear or do nothing.
    The three notify functions catch their own failures. *)
Definition notify_step (low high pct : Z) (status : string) (f : StateFile)
    : Outcome :=
  let current_state := read_state f in
  match decide pct status low high current_state with
  | NotifyHigh =>
      match write_state f "notified_high" with
      | Return f' =>
          {| events := [Notified High pct high; StateWritten "notified_high"];
             file := f'; raised := None |}
      | Raise e =>
          {| events := [Notified High pct high]; file := f; raised := Some e |}
      end
  | NotifyLow =>
      match write_state f "notified_low" with
      | Return f' =>
          {| events := [Notified Low pct low; StateWritten "notified_low"];
             file := f'; raised := None |}
      | Raise e =>
          {| events := [Notified Low pct low]; file := f; raised := Some e |}
      end
  | ResetState =>
      {| events := [StateCleared]; file := clear_state f; raised := None |}
  | NoChange =>
      {| events := []; file := f; raised := None |}
  end.

(** [one_iteration] from line 308 on, with [low] and [high] already parsed
    from the configuration and [paths] what this cycle's battery reads
    see; lines 303-307 are in [one_iteration_cfg]. *)
Definition one_iteration (low high : Z) (force : option string)
    (paths : list BatteryDir) (f : StateFile) : Outcome :=
  let reading :=
    match force with
    | Some "force-high" => Return (high, "Charging")
    | Some "force-low" => Return (low, "Discharging")
    | _ => battery_info paths
    end in
  match reading with
  | Raise e => {| events := [LogError e]; file := f; raised := None |}
  | Return (pct, status) => notify_step low high pct status f
  end.

(** [daemon_loop]: one entry of [cycles] per turn of [while RUNNING], so
    the list ends where the signal handler clears [RUNNING]. The loop sits
    in a [try ... finally] without [except]: what a cycle raises leaves it. *)
Fixpoint daemon_loop (low high : Z) (cycles : list (list BatteryDir))
    (f : StateFile) : Outcome :=
  match cycles with
  | [] => {| events := []; file := f; raised := None |}
  | paths :: rest =>
      let o := one_iteration low high None paths f in
      match raised o with
      | Some _ => o
      | None =>
          let o' := daemon_loop low high rest (file o) in
          {| events := events o ++ events o';
             file := file o'; raised := raised o' |}
      end
  end.

(** The spec's threading of [decide]: each reading is decided against the
    token the previous decision left. *)
Fixpoint run_decide (low high : Z) (readings : list (Z * string))
    (current_state : string) : list (option Kind * string) :=
  match readings with
  | [] => []
  | (pct, status) :: rest =>
      let d := decide pct status low high current_state in
      let st := state_after current_state d in
      (action d, st) :: run_decide low high rest st
  end.

(** A battery directory with a [capacity] and a [status] file only. *)
Definition capacity_dir (c : Z) (s : string) : BatteryDir :=
  {| file_energy_now := None; file_charge_now := None;
     file_energy_full := None; file_charge_full := None;
     file_capacity := Some c; raw_status := Some s |}.

(** A state directory in working order, holding [c]. *)
Definition healthy (c : option string) : StateFile :=
  {| content := c; readable := true; writable := true; removable := true |}.

(** A state directory that cannot be written to (read-only, or full). *)
Definition read_only (c : option string) : StateFile :=
  {| content := c; readable := true; writable := false; removable := false |}.

(** ** Predicates the statements use *)

Definition is_notification (ev : Event) : bool :=
  match ev with
  | Notified _ _ _ => true
  | _ => false
  end.

Definition touches_state (ev : Event) : bool :=
  match ev with
  | StateWritten _ | StateCleared => true
  | _ => false
  end.

(** The rows of the spec's table in which nothing is to happen: a crossing
    already notified, or a reading that is no crossing and lies outside the
    neutral band. *)
Definition suppressed_or_other (pct : Z) (status : string) (low high : Z)
    (current_state : string) : Prop :=
  (status = "Charging" /\ high <= pct /\ current_state = "notified_high") \/
  (status = "Discharging" /\ pct <= low /\ current_state = "notified_low") \/
  (~ (status = "Charging" /\ high <= pct) /\
   ~ (status = "Discharging" /\ pct <= low) /\
   ~ (low < pct < high)).

(** ** The weighted mean, written out

    What the aggregation is to compute, stated on the readings and not by
    way of the loop: each device has a percentage and a weight, and the
    overall percentage is the sum of percentage times weight over the sum
    of the weights, both summed in device order from 0.0. *)

(** The energy figures a device is weighed by: both are present and the
    full energy is not zero. *)
Definition energy_figures (d : DeviceReading) : option (float * float) :=
  match energy_now d, energy_full d with
  | Some en, Some ef => if Py.float_truthy ef then Some (en, ef) else None
  | _, _ => None
  end.

(** The float nearest to an int, an infinity beyond the float range. *)
Definition nearest_float (n : Z) : float :=
  SF2Prim (binary_normalize prec emax n 0 false).

(** The capacity of a device that is not weighed by energy figures. *)
Definition fallback_capacity (d : DeviceReading) : option Z :=
  match energy_figures d with
  | Some _ => None
  | None => capacity d
  end.

(** Whether the fallback capacity, if any, is within the float range. *)
Definition capacity_fits (d : DeviceReading) : bool :=
  match fallback_capacity d with
  | Some c => negb (PrimFloat.is_infinity (nearest_float c))
  | None => true
  end.

(** Percentage times weight: [100 * en / ef] times [ef], or the capacity
    (or 0) times 1. *)
Definition weighted_pct (d : DeviceReading) : float :=
  match energy_figures d with
  | Some (en, ef) =>
      PrimFloat.mul (PrimFloat.mul (PrimFloat.div en ef) 100%float) ef
  | None =>
      match capacity d with
      | Some c => nearest_float c
      | None => 0%float
      end
  end.

Definition weight (d : DeviceReading) : float :=
  match energy_figures d with
  | Some (_, ef) => ef
  | None => 1%float
  end.

Definition float_sum (xs : list float) : float :=
  fold_left PrimFloat.add xs 0%float.

Definition weighted_total (ds : list DeviceReading) : float :=
  float_sum (map weighted_pct ds).

Definition total_weight (ds : list DeviceReading) : float :=
  float_sum (map weight ds).

Definition fallback_capacities (ds : list DeviceReading) : list Z :=
  flat_map (fun d => match fallback_capacity d with
                     | Some c => [c]
                     | None => []
                     end) ds.

(** Whether the readings have a mean that [round] accepts: every fallback
    capacity is within the float range and, when the total weight is
    positive, the quotient is neither NaN nor an infinity. *)
Definition mean_defined (ds : list DeviceReading) : bool :=
  forallb capacity_fits ds &&
  (if PrimFloat.ltb 0%float (total_weight ds)
   then PrimFloat.is_finite
          (PrimFloat.div (weighted_total ds) (total_weight ds))
   else true).

(** The percentage the readings call for: the rounded mean, or without a
    positive total weight the first fallback capacity, or 0. *)
Definition expected_percent (ds : list DeviceReading) : result Z :=
  if PrimFloat.ltb 0%float (total_weight ds)
  then Py.round (PrimFloat.div (weighted_total ds) (total_weight ds))
  else Return (hd 0 (fallback_capacities ds)).

(** ** What the aggregation statements speak of *)

(** The statuses the loop of [battery_info] collects, in device order. *)
Definition reported (ds : list DeviceReading) : list string :=
  flat_map (fun d => match status d with
                     | Some s => if Py.str_truthy s then [s] else []
                     | None => []
                     end) ds.

(** A reading with its status replaced. *)
Definition with_status (f : DeviceReading -> option string)
    (d : DeviceReading) : DeviceReading :=
  {| energy_now := energy_now d; energy_full := energy_full d;
     capacity := capacity d; status := f d |}.

(** The percentage of a result of [battery_info]. *)
Definition percent_of (r : result (Z * string)) : result Z :=
  p <- r ;; Return (fst p).

(** Whether a status lower-cases to [word]. *)
Definition says (word : string) (s : string) : bool :=
  String.eqb (Py.lower s) word.

(** The status of a result of [battery_info]. *)
Definition status_of (r : result (Z * string)) : result string :=
  p <- r ;; Return (snd p).

(** What one device adds to the accumulators (lines 153-169): to
    [total_energy], to [total_capacity_weight] and to [capacities]. *)
Definition contribution (d : DeviceReading) : result (float * float * list Z) :=
  match energy_now d, Py.opt_float_truthy (energy_full d), energy_full d with
  | Some en, true, Some ef =>
      pct <- try_except
               (q <- Py.float_div en ef ;; Return (PrimFloat.mul q 100%float))
               (match capacity d with
                | Some c => Py.float_of_int c
                | None => Return 0%float
                end) ;;
      Return (PrimFloat.mul pct ef, ef, [])
  | _, _, _ =>
      match capacity d with
      | Some c => fc <- Py.float_of_int c ;; Return (fc, 1%float, [c])
      | None => Return (0%float, 1%float, [])
      end
  end.

(** The accumulators but for the statuses. *)
Definition numbers (a : Acc) : float * float * list Z :=
  (total_energy a, total_capacity_weight a, capacities a).

(** A battery directory without its energy and charge files. *)
Definition capacity_only (p : BatteryDir) : BatteryDir :=
  {| file_energy_now := None; file_charge_now := None;
     file_energy_full := None; file_charge_full := None;
     file_capacity := file_capacity p; raw_status := raw_status p |}.

(** Whether [energy_now] reads 0.0 and there is no [charge_now] to read. *)
Definition drained (p : BatteryDir) : bool :=
  match file_energy_now p, file_charge_now p with
  | Some x, None => PrimFloat.eqb x 0%float
  | _, _ => false
  end.

(** What makes an event of a poll cycle legitimate under the thresholds:
    a high notification carries [high] and a percentage at or above it, a
    low one [low] and a percentage at or below it, and only the two
    notified tokens are written. *)
Definition justified (low high : Z) (ev : Event) : Prop :=
  match ev with
  | Notified High pct threshold => threshold = high /\ high <= pct
  | Notified Low pct threshold => threshold = low /\ pct <= low
  | StateWritten value => value = "notified_high" \/ value = "notified_low"
  | LogError _ | StateCleared => True
  end.

(** A reading that neither enters the neutral band nor crosses low. *)
Definition stays_high (low high : Z) (r : Z * string) : Prop :=
  ~ (low < fst r < high) /\ ~ (snd r = "Discharging" /\ fst r <= low).

(** A reading that neither enters the neutral band nor crosses high. *)
Definition stays_low (low high : Z) (r : Z * string) : Prop :=
  ~ (low < fst r < high) /\ ~ (snd r = "Charging" /\ high <= fst r).

(** ** More of Python's strings, and its dicts *)

Module PyStr.

Definition dquote : ascii := ascii_of_nat 34.
Definition squote : ascii := ascii_of_nat 39.
Definition hash : ascii := ascii_of_nat 35.
Definition equals : ascii := ascii_of_nat 61.

(** [s.lstrip(chars)], [s.rstrip(chars)] and [s.strip(chars)], the set
    [chars] given by its membership test. *)
Fixpoint lstrip_chars (p : ascii -> bool) (s : string) : string :=
  match s with
  | EmptyString => EmptyString
  | String c s' => if p c then lstrip_chars p s' else s
  end.

Fixpoint rstrip_chars (p : ascii -> bool) (s : string) : string :=
  match s with
  | EmptyString => EmptyString
  | String c s' =>
      match rstrip_chars p s' with
      | EmptyString => if p c then EmptyString else String c EmptyString
      | t => String c t
      end
  end.

Definition strip_chars (p : ascii -> bool) (s : string) : string :=
  rstrip_chars p (lstrip_chars p s).

(** [s.startswith(c)] for a one-character [c]. *)
Definition startswith (c : ascii) (s : string) : bool :=
  match s with
  | EmptyString => false
  | String c' _ => Ascii.eqb c' c
  end.

(** [s.split(c, 1)] when [c] occurs in [s], and [None] when it does not. *)
Fixpoint split_once (c : ascii) (s : string) : option (string * string) :=
  match s with
  | EmptyString => None
  | String c' s' =>
      if Ascii.eqb c' c then Some (EmptyString, s')
      else match split_once c s' with
           | Some (a, b) => Some (String c' a, b)
           | None => None
           end
  end.

(** Every character of [s] fails [p]. *)
Fixpoint free_of (p : ascii -> bool) (s : string) : bool :=
  match s with
  | EmptyString => true
  | String c s' => negb (p c) && free_of p s'
  end.

End PyStr.

(** A [Dict[str, str]]: the items in insertion order, looked up from the
    front; setting a key that is present keeps its place. *)
Definition Dict : Type := list (string * string).

Fixpoint dict_get (k : string) (d : Dict) : option string :=
  match d with
  | [] => None
  | (k', v) :: d' => if String.eqb k' k then Some v else dict_get k d'
  end.

Fixpoint dict_set (k v : string) (d : Dict) : Dict :=
  match d with
  | [] => [(k, v)]
  | (k', v') :: d' =>
      if String.eqb k' k then (k', v) :: d' else (k', v') :: dict_set k v d'
  end.

(** [d.update(e)]. *)
Definition dict_update (d e : Dict) : Dict :=
  fold_left (fun acc kv => dict_set (fst kv) (snd kv) acc) e d.

(** [d.setdefault(k, v)], for its effect on [d]. *)
Definition setdefault (k v : string) (d : Dict) : Dict :=
  match dict_get k d with
  | Some _ => d
  | None => dict_set k v d
  end.

(** ** Configuration *)

(** What opening and reading an env file does: [FileNotFoundError],
    another exception, or the lines of the file. *)
Inductive EnvFile : Type :=
| NoSuchFile
| Unreadable (e : exn)
| Lines (ls : list string).

(** The body of the loop of [load_env_file]: the item a line sets, if any. *)
Definition parse_env_line (line : string) : option (string * string) :=
  let line := Py.strip line in
  if negb (Py.str_truthy line) || PyStr.startswith PyStr.hash line then None
  else
    match PyStr.split_once PyStr.equals line with
    | None => None
    | Some (k, v) =>
        Some (Py.strip k,
              PyStr.strip_chars (Ascii.eqb PyStr.squote)
                (PyStr.strip_chars (Ascii.eqb PyStr.dquote) (Py.strip v)))
    end.

Definition env_step (env : Dict) (line : string) : Dict :=
  match parse_env_line line with
  | Some (k, v) => dict_set k v env
  | None => env
  end.

(** [load_env_file]: only [FileNotFoundError] is caught. *)
Definition load_env_file (f : EnvFile) : result Dict :=
  match f with
  | NoSuchFile => Return []
  | Unreadable e => Raise e
  | Lines ls => Return (fold_left env_step ls [])
  end.

(** The fallback defaults of [load_config], in the order they are set;
    [state_dir] and [logfile] are DEFAULT_STATE_DIR and DEFAULT_LOGFILE. *)
Definition defaults (state_dir logfile : string) : Dict :=
  [("HIGH", "80"); ("LOW", "20"); ("POLL_INTERVAL", "60");
   ("STATE_DIR", state_dir); ("LOGFILE", logfile);
   ("TELEGRAM_BOT_TOKEN", ""); ("TELEGRAM_CHAT_ID", "")]%string.

(** [load_config]: the environment, updated from the env file when a path
    is given, then the defaults for what is still missing. [files] is the
    file system as [load_env_file] sees it. *)
Definition load_config (state_dir logfile : string) (environ : Dict)
    (files : string -> EnvFile) (env_path : option string) : result Dict :=
  cfg <- match env_path with
         | Some p =>
             if Py.str_truthy p
             then env <- load_env_file (files p) ;; Return (dict_update environ env)
             else Return environ
         | None => Return environ
         end ;;
  Return (fold_left (fun c kv => setdefault (fst kv) (snd kv) c)
            (defaults state_dir logfile) cfg).

(** A run of white space, and a word without white space or quotes. *)
Definition all_space (s : string) : bool :=
  PyStr.free_of (fun c => negb (Py.is_space c)) s.

Definition plain (s : string) : bool :=
  PyStr.free_of
    (fun c => Py.is_space c || Ascii.eqb PyStr.dquote c
              || Ascii.eqb PyStr.squote c) s.

(** The items [load_config] takes from the env file: none without a path,
    with an empty path or without the file. *)
Definition file_items (files : string -> EnvFile) (env_path : option string)
    : Dict :=
  match env_path with
  | Some p =>
      if Py.str_truthy p
      then match load_env_file (files p) with
           | Return env => env
           | Raise _ => []
           end
      else []
  | None => []
  end.

(** ** The poll cycle from the configuration *)

Section FromConfiguration.

(** Python's [int] on a [str], which the daemon applies to configuration
    values: the int, or the [ValueError] of a value it does not accept. *)
Variable int : string -> result Z.

(** [cfg.get(k, default)]. *)
Definition cfg_get (cfg : Dict) (k default : string) : string :=
  match dict_get k cfg with
  | Some v => v
  | None => default
  end.

(** [one_iteration(cfg, force)] whole: lines 303-307 parse the thresholds
    and join the state path, outside any [try], and then the cycle runs on
    [f], the file "state" in the directory that STATE_DIR names. *)
Definition one_iteration_cfg (cfg : Dict) (force : option string)
    (paths : list BatteryDir) (f : StateFile) : Outcome :=
  match int (cfg_get cfg "LOW" "20") with
  | Raise e => {| events := []; file := f; raised := Some e |}
  | Return low =>
      match int (cfg_get cfg "HIGH" "80") with
      | Raise e => {| events := []; file := f; raised := Some e |}
      | Return high =>
          match dict_get "STATE_DIR" cfg with
          | None => {| events := []; file := f; raised := Some TypeError |}
          | Some _ => one_iteration low high force paths f
          end
      end
  end.

(** The [while RUNNING] loop of [daemon_loop(cfg)]. *)
Fixpoint poll_cycles (cfg : Dict) (cycles : list (list BatteryDir))
    (f : StateFile) : Outcome :=
  match cycles with
  | [] => {| events := []; file := f; raised := None |}
  | paths :: rest =>
      let o := one_iteration_cfg cfg None paths f in
      match raised o with
      | Some _ => o
      | None =>
          let o' := poll_cycles cfg rest (file o) in
          {| events := events o ++ events o';
             file := file o'; raised := raised o' |}
      end
  end.

(** [daemon_loop(cfg)] whole: the poll interval is parsed first, outside
    any [try]; what writing the pid file raises is swallowed. *)
Definition daemon_loop_cfg (cfg : Dict) (cycles : list (list BatteryDir))
    (f : StateFile) : Outcome :=
  match int (cfg_get cfg "POLL_INTERVAL" "60") with
  | Raise e => {| events := []; file := f; raised := Some e |}
  | Return _ => poll_cycles cfg cycles f
  end.

End FromConfiguration.

(** [int] on the plainest literals, to instantiate it in examples: a
    non-empty run of the digits 0-9 has its decimal value. Everything else
    is rejected here, the empty string rightly so, though [int] accepts
    more (a sign, white space around, underscores between digits). *)
Fixpoint digits_value (acc : Z) (s : string) : option Z :=
  match s with
  | EmptyString => Some acc
  | String c s' =>
      let n := Z.of_nat (nat_of_ascii c) in
      if (48 <=? n) && (n <=? 57) then digits_value (10 * acc + (n - 48)) s'
      else None
  end.

Definition int_of_digits (s : string) : result Z :=
  match s with
  | EmptyString => Raise ValueError
  | String _ _ =>
      match digits_value 0 s with
      | Some z => Return z
      | None => Raise ValueError
      end
  end.

(** ** Command line *)

(** The local variables of [main] that the argument loop sets. *)
Record Options : Type := {
  env_path : string;
  once : bool;
  forced : option string;
  daemon : bool;
  verbose : bool;
  override_poll : option string
}.

(** How the argument loop of [main] ends. *)
Inductive ArgsOutcome : Type :=
| ShowHelp                    (* print_help(); return 0 *)
| UnknownOption (a : string)  (* print "Unknown option:"; return 2 *)
| MissingValue                (* argv[i] past the end: IndexError *)
| Parsed (o : Options).       (* the loop ran to the end of argv *)

(** The loop of lines 408-434 over [argv[i:]]. *)
Fixpoint parse_args (o : Options) (args : list string) : ArgsOutcome :=
  match args with
  | [] => Parsed o
  | a :: rest =>
      if String.eqb a "-h" || String.eqb a "--help" then ShowHelp
      else if String.eqb a "--config" then
        match rest with
        | [] => MissingValue
        | p :: rest' =>
            parse_args {| env_path := p; once := once o; forced := forced o;
                          daemon := daemon o; verbose := verbose o;
                          override_poll := override_poll o |} rest'
        end
      else if String.eqb a "--once" then
        parse_args {| env_path := env_path o; once := true; forced := forced o;
                      daemon := daemon o; verbose := verbose o;
                      override_poll := override_poll o |} rest
      else if String.eqb a "--daemon" then
        parse_args {| env_path := env_path o; once := once o; forced := forced o;
                      daemon := true; verbose := verbose o;
                      override_poll := override_poll o |} rest
      else if String.eqb a "--test-high" then
        parse_args {| env_path := env_path o; once := true;
                      forced := Some "force-high";
                      daemon := daemon o; verbose := verbose o;
                      override_poll := override_poll o |} rest
      else if String.eqb a "--test-low" then
        parse_args {| env_path := env_path o; once := true;
                      forced := Some "force-low";
                      daemon := daemon o; verbose := verbose o;
                      override_poll := override_poll o |} rest
      else if String.eqb a "--poll" then
        match rest with
        | [] => MissingValue
        | n :: rest' =>
            parse_args {| env_path := env_path o; once := once o;
                          forced := forced o; daemon := daemon o;
                          verbose := verbose o; override_poll := Some n |} rest'
        end
      else if String.eqb a "--verbose" then
        parse_args {| env_path := env_path o; once := once o; forced := forced o;
                      daemon := daemon o; verbose := true;
                      override_poll := override_poll o |} rest
      else UnknownOption a
  end.

(** The variables as [main] initialises them; [default_env_path] is
    DEFAULT_ENV_PATH. *)
Definition initial_options (default_env_path : string) : Options :=
  {| env_path := default_env_path; once := false; forced := None;
     daemon := false; verbose := false; override_poll := None |}.

(** The argument loop of [main] on [argv]: it starts at [argv[1]]. *)
Definition main_args (default_env_path : string) (argv : list string)
    : ArgsOutcome :=
  parse_args (initial_options default_env_path) (tl argv).

(** The options the loop knows. *)
Definition known_option (a : string) : bool :=
  existsb (String.eqb a)
    ["-h"; "--help"; "--config"; "--once"; "--daemon"; "--test-high";
     "--test-low"; "--poll"; "--verbose"]%string.

(** A test mode is one of the two forced readings and comes with [once]. *)
Definition test_mode_once (o : Options) : Prop :=
  forced o = None \/
  (once o = true /\
   (forced o = Some "force-high" \/ forced o = Some "force-low")).

(** * Properties of the aggregation *)

Section FloatFacts.

(** A float above zero is not zero: the division of line 173 cannot raise. *)
Lemma positive_is_nonzero (w : float) :
  PrimFloat.ltb 0%float w = true -> PrimFloat.eqb w 0%float = false.
Proof.
  rewrite ltb_spec, eqb_spec.
  change (Prim2SF 0%float) with (S754_zero false).
  destruct (Prim2SF w) as [s | s | | s m e]; try destruct s; simpl;
    intros H; try discriminate H; reflexivity.
Qed.

Lemma SFeqb_finite_refl (s : bool) (m : positive) (e : Z) :
  SFeqb (S754_finite s m e) (S754_finite s m e) = true.
Proof.
  unfold SFeqb, SFcompare.
  rewrite Z.compare_refl, Pos.compare_cont_refl.
  destruct s; reflexivity.
Qed.

(** The library's [is_finite], read off the decoded float. *)
Lemma is_finite_spec (x : float) :
  PrimFloat.is_finite x =
  match Prim2SF x with
  | S754_nan | S754_infinity _ => false
  | S754_zero _ | S754_finite _ _ _ => true
  end.
Proof.
  unfold is_finite, is_nan, is_infinity.
  rewrite !eqb_spec, abs_spec.
  change (Prim2SF infinity) with (S754_infinity false).
  destruct (Prim2SF x) as [s | s | | s m e].
  - destruct s; reflexivity.
  - destruct s; reflexivity.
  - reflexivity.
  - rewrite SFeqb_finite_refl. destruct s; reflexivity.
Qed.

(** [round] returns exactly on the finite floats. *)
Lemma round_returns_iff_finite (x : float) :
  returned (Py.round x) = PrimFloat.is_finite x.
Proof.
  rewrite is_finite_spec. unfold Py.round.
  destruct (Prim2SF x); reflexivity.
Qed.

Lemma round_raises (x : float) (e : exn) :
  Py.round x = Raise e -> e = ValueError \/ e = OverflowError.
Proof.
  unfold Py.round.
  destruct (Prim2SF x); intros H; inversion H; auto.
Qed.

End FloatFacts.

Section Accumulation.

Lemma float_of_int_raises (n : Z) (e : exn) :
  Py.float_of_int n = Raise e -> e = OverflowError.
Proof.
  unfold Py.float_of_int.
  destruct (is_infinity _); intros H; inversion H; reflexivity.
Qed.

(** The [except] branch of line 157 is dead: the divisor is truthy. *)
Lemma guarded_division_returns (en ef : float) :
  Py.float_truthy ef = true ->
  Py.float_div en ef = Return (PrimFloat.div en ef).
Proof.
  unfold Py.float_truthy, Py.float_div.
  destruct (PrimFloat.eqb ef 0%float); [discriminate | reflexivity].
Qed.

Lemma accumulate_raises (a : Acc) (d : DeviceReading) (e : exn) :
  accumulate a d = Raise e -> e = OverflowError.
Proof.
  unfold accumulate.
  destruct (energy_now d) as [en |], (energy_full d) as [ef |]; simpl.
  - destruct (Py.float_truthy ef) eqn:T.
    + rewrite (guarded_division_returns en ef T). simpl. discriminate.
    + destruct (capacity d) as [c |]; simpl; [| discriminate].
      destruct (Py.float_of_int c) eqn:F; simpl; [| discriminate].
      intros H; inversion H; subst. eapply float_of_int_raises; eauto.
  - destruct (capacity d) as [c |]; simpl; [| discriminate].
    destruct (Py.float_of_int c) eqn:F; simpl; [| discriminate].
    intros H; inversion H; subst. eapply float_of_int_raises; eauto.
  - destruct (capacity d) as [c |]; simpl; [| discriminate].
    destruct (Py.float_of_int c) eqn:F; simpl; [| discriminate].
    intros H; inversion H; subst. eapply float_of_int_raises; eauto.
  - destruct (capacity d) as [c |]; simpl; [| discriminate].
    destruct (Py.float_of_int c) eqn:F; simpl; [| discriminate].
    intros H; inversion H; subst. eapply float_of_int_raises; eauto.
Qed.

Lemma accumulate_all_raises (ds : list DeviceReading) :
  forall (a : Acc) (e : exn),
    accumulate_all a ds = Raise e -> e = OverflowError.
Proof.
  induction ds as [| d ds IH]; intros a e; simpl.
  - discriminate.
  - destruct (accumulate a d) as [e' | a'] eqn:A; simpl.
    + intros H; inversion H; subst. eapply accumulate_raises; eauto.
    + apply IH.
Qed.

(** Past the empty check, [aggregate] is the three steps in sequence. *)
Lemma aggregate_nonempty (ds : list DeviceReading) :
  ds <> [] ->
  aggregate ds =
    (a <- accumulate_all acc0 ds ;;
     pct <- overall_pct a ;;
     Return (pct, overall_status (statuses a))).
Proof.
  destruct ds; [congruence | reflexivity].
Qed.

Lemma overall_pct_returns (a : Acc) :
  returned (overall_pct a) =
  if PrimFloat.ltb 0%float (total_capacity_weight a)
  then PrimFloat.is_finite
         (PrimFloat.div (total_energy a) (total_capacity_weight a))
  else true.
Proof.
  unfold overall_pct.
  destruct (PrimFloat.ltb 0%float (total_capacity_weight a)) eqn:W; [| reflexivity].
  unfold Py.float_div. rewrite (positive_is_nonzero _ W). simpl.
  apply round_returns_iff_finite.
Qed.

Lemma overall_pct_raises (a : Acc) (e : exn) :
  overall_pct a = Raise e -> e = ValueError \/ e = OverflowError.
Proof.
  unfold overall_pct.
  destruct (PrimFloat.ltb 0%float (total_capacity_weight a)) eqn:W; [| discriminate].
  unfold Py.float_div. rewrite (positive_is_nonzero _ W). simpl.
  apply round_raises.
Qed.

End Accumulation.

Section WeightedMean.

(** One round of the loop adds the device's percentage times weight and
    its weight, or raises on a fallback capacity beyond the float range. *)
Lemma accumulate_weighs (a : Acc) (d : DeviceReading) :
  accumulate a d =
    if capacity_fits d
    then Return {| total_energy := PrimFloat.add (total_energy a) (weighted_pct d);
                   total_capacity_weight :=
                     PrimFloat.add (total_capacity_weight a) (weight d);
                   statuses := statuses a ++ reported [d];
                   capacities := capacities a ++ fallback_capacities [d] |}
    else Raise OverflowError.
Proof.
  assert (S : statuses a ++ reported [d] =
              match status d with
              | Some s => if Py.str_truthy s then statuses a ++ [s] else statuses a
              | None => statuses a
              end).
  { unfold reported; simpl. destruct (status d) as [s |];
      [destruct (Py.str_truthy s) |]; simpl; rewrite ?app_nil_r; reflexivity. }
  assert (C : fallback_capacities [d] =
              match fallback_capacity d with
              | Some c => [c]
              | None => []
              end).
  { unfold fallback_capacities. simpl. apply app_nil_r. }
  unfold accumulate. rewrite <- S, C. clear S C.
  unfold capacity_fits, fallback_capacity, weighted_pct, weight, energy_figures.
  destruct (energy_now d) as [en |], (energy_full d) as [ef |]; simpl;
    try (destruct (Py.float_truthy ef) eqn:T; simpl);
    try (rewrite (guarded_division_returns en ef T); simpl;
         rewrite !app_nil_r; reflexivity);
    (destruct (capacity d) as [c |]; simpl;
     [unfold Py.float_of_int, nearest_float;
      destruct (PrimFloat.is_infinity _); reflexivity
     | rewrite !app_nil_r; reflexivity]).
Qed.

Lemma reported_cons (d : DeviceReading) (ds : list DeviceReading) :
  reported (d :: ds) = reported [d] ++ reported ds.
Proof. unfold reported. simpl. rewrite app_nil_r. reflexivity. Qed.

Lemma fallback_capacities_cons (d : DeviceReading) (ds : list DeviceReading) :
  fallback_capacities (d :: ds) =
    fallback_capacities [d] ++ fallback_capacities ds.
Proof. unfold fallback_capacities. simpl. rewrite app_nil_r. reflexivity. Qed.

Lemma accumulate_all_fits (ds : list DeviceReading) :
  forall a : Acc,
    forallb capacity_fits ds = true ->
    accumulate_all a ds =
      Return {| total_energy :=
                  fold_left PrimFloat.add (map weighted_pct ds) (total_energy a);
                total_capacity_weight :=
                  fold_left PrimFloat.add (map weight ds)
                    (total_capacity_weight a);
                statuses := statuses a ++ reported ds;
                capacities := capacities a ++ fallback_capacities ds |}.
Proof.
  induction ds as [| d ds IH]; intros a F.
  - destruct a. simpl. rewrite !app_nil_r. reflexivity.
  - simpl in F. apply andb_true_iff in F. destruct F as [Fd Fds].
    cbn [accumulate_all]. rewrite accumulate_weighs, Fd. cbn [bind].
    rewrite (IH _ Fds). cbn [total_energy total_capacity_weight statuses
                              capacities map fold_left].
    rewrite (reported_cons d ds), (fallback_capacities_cons d ds), !app_assoc.
    reflexivity.
Qed.

Lemma accumulate_all_overflows (ds : list DeviceReading) :
  forall a : Acc,
    forallb capacity_fits ds = false ->
    accumulate_all a ds = Raise OverflowError.
Proof.
  induction ds as [| d ds IH]; intros a F; [discriminate |].
  cbn [accumulate_all]. rewrite accumulate_weighs.
  simpl in F. destruct (capacity_fits d); [| reflexivity].
  cbn [bind]. apply IH. exact F.
Qed.

(** The percentage of the accumulators the loop ends with is the one the
    readings call for. *)
Lemma overall_pct_expected (ds : list DeviceReading) (sts : list string) :
  overall_pct {| total_energy :=
                   fold_left PrimFloat.add (map weighted_pct ds) 0%float;
                 total_capacity_weight :=
                   fold_left PrimFloat.add (map weight ds) 0%float;
                 statuses := sts;
                 capacities := [] ++ fallback_capacities ds |} =
  expected_percent ds.
Proof.
  unfold overall_pct, expected_percent, total_weight, weighted_total, float_sum.
  cbn [total_energy total_capacity_weight capacities app].
  destruct (PrimFloat.ltb 0%float
              (fold_left PrimFloat.add (map weight ds) 0%float)) eqn:W.
  - unfold Py.float_div. rewrite (positive_is_nonzero _ W). reflexivity.
  - destruct (fallback_capacities ds); reflexivity.
Qed.

Lemma expected_percent_returns (ds : list DeviceReading) :
  returned (expected_percent ds) =
    if PrimFloat.ltb 0%float (total_weight ds)
    then PrimFloat.is_finite
           (PrimFloat.div (weighted_total ds) (total_weight ds))
    else true.
Proof.
  unfold expected_percent.
  destruct (PrimFloat.ltb 0%float (total_weight ds)); [| reflexivity].
  apply round_returns_iff_finite.
Qed.

Lemma expected_percent_raises (ds : list DeviceReading) (e : exn) :
  expected_percent ds = Raise e -> e = ValueError \/ e = OverflowError.
Proof.
  unfold expected_percent.
  destruct (PrimFloat.ltb 0%float (total_weight ds)); [| discriminate].
  apply round_raises.
Qed.

End WeightedMean.

Section AggregateClaims.

Set Warnings "-inexact-float".

(** C1, at a failing input. The docstring of [battery_info] promises a
    percentage in 0..100, but nothing clamps the weighted mean: one battery
    whose [energy_now] of 120 exceeds its [energy_full] of 100 (which is
    present and above 0) aggregates to 120 percent. *)
Theorem aggregate_percent_not_clamped :
  energy_full (energy_device 120 100) = Some 100%float /\
  PrimFloat.ltb 0%float 100%float = true /\
  aggregate [energy_device 120 100] = Return (120, "Unknown") /\
  (120 <=? 100) = false.
Proof. repeat split; vm_compute; reflexivity. Qed.

(** C5, at a failing input. The docstring of [battery_info] lists the status
    values Charging, Discharging, Full and Unknown, but a status that
    matches none of the first three is returned as the device wrote it:
    one battery reporting the kernel's "Not charging" aggregates to that
    raw string. *)
Theorem aggregate_status_raw_string :
  aggregate [capacity_device 50 "Not charging"] = Return (50, "Not charging") /\
  existsb (String.eqb "Not charging")
    ["Charging"; "Discharging"; "Full"; "Unknown"] = false.
Proof. split; vm_compute; reflexivity. Qed.

(** C7 as stated fails: a single battery with finite energy figures, 1e308
    against a full charge of 1, has a percentage that overflows to
    infinity, and [round] raises [OverflowError] on it, so the non-empty
    list does not aggregate to a reading. *)
Lemma aggregate_nonempty_raises :
  [energy_device 1e308 1] <> [] /\
  PrimFloat.is_finite 1e308 = true /\
  aggregate [energy_device 1e308 1] = Raise OverflowError.
Proof.
  split; [discriminate |].
  split; vm_compute; reflexivity.
Qed.

(** C7, amended. [aggregate] of the empty list raises the [RuntimeError]
    that reports no battery. Of a non-empty list it returns a reading
    exactly when the weighted mean of the readings is defined: every
    fallback capacity is within the float range and, when the sum of the
    weights is positive, the sum of percentage times weight over it is
    neither NaN nor an infinity. The percentage returned is then that
    quotient rounded (without a positive total weight, the first fallback
    capacity, or 0). Otherwise it raises [OverflowError] or [ValueError],
    never the no-battery error. *)
Theorem aggregate_empty_raises_nonempty_returns :
  aggregate [] = Raise RuntimeError /\
  forall ds : list DeviceReading, ds <> [] ->
    (mean_defined ds = true ->
       exists pct st,
         expected_percent ds = Return pct /\
         aggregate ds = Return (pct, st)) /\
    (mean_defined ds = false ->
       aggregate ds = Raise OverflowError \/ aggregate ds = Raise ValueError).
Proof.
  split; [reflexivity |].
  intros ds Hne. rewrite (aggregate_nonempty ds Hne).
  unfold mean_defined.
  destruct (forallb capacity_fits ds) eqn:F.
  - rewrite (accumulate_all_fits ds acc0 F). cbn [bind andb].
    rewrite overall_pct_expected.
    rewrite <- (expected_percent_returns ds).
    destruct (expected_percent ds) as [e | pct] eqn:P; cbn [bind returned].
    + split; [discriminate |]. intros _.
      destruct (expected_percent_raises ds e P); subst; auto.
    + split; [| discriminate]. intros _. eauto.
  - rewrite (accumulate_all_overflows ds acc0 F). cbn [bind andb].
    split; [discriminate | auto].
Qed.

(** The amended C7 at the two-battery example of the spec. *)
Lemma aggregate_empty_raises_nonempty_returns_witness :
  exists pct st,
    expected_percent [energy_device 50 100; energy_device 30 50] = Return pct /\
    aggregate [energy_device 50 100; energy_device 30 50] = Return (pct, st).
Proof.
  apply (proj2 aggregate_empty_raises_nonempty_returns
           [energy_device 50 100; energy_device 30 50]).
  - discriminate.
  - vm_compute. reflexivity.
Defined.

(** C8 as stated fails: the two batteries aggregate to 53, not to 73. *)
Lemma aggregate_two_devices_not_73 :
  exists r,
    aggregate [energy_device 50 100; energy_device 30 50] = Return r /\
    fst r = 53 /\ (fst r =? 73) = false.
Proof. eexists. repeat split; vm_compute; reflexivity. Qed.

(** C8, amended. Two batteries with energies 50 of 100 and 30 of 50, whatever
    else they report, aggregate to the mean of their percentages 50 and 60
    weighted by the full energies: round((50*100 + 60*50) / 150) = 53. *)
Theorem aggregate_two_devices_weighted (c1 c2 : option Z) (s1 s2 : option string) :
  exists st,
    aggregate
      [ {| energy_now := Some 50%float; energy_full := Some 100%float;
           capacity := c1; status := s1 |};
        {| energy_now := Some 30%float; energy_full := Some 50%float;
           capacity := c2; status := s2 |} ] = Return (53, st).
Proof.
  unfold aggregate, accumulate_all, accumulate, bind, try_except; simpl.
  eexists. reflexivity.
Qed.

End AggregateClaims.

(** * Properties of the notification step *)

Section Decide.

Variables (pct : Z) (status : string) (low high : Z).

Ltac branches :=
  unfold decide;
  destruct (String.eqb status "Charging" && (high <=? pct)) eqn:Hhigh;
  [| destruct (String.eqb status "Discharging" && (pct <=? low)) eqn:Hlow;
     [| destruct ((low <? pct) && (pct <? high)) eqn:Hband ] ].

Lemma high_crossing_iff :
  String.eqb status "Charging" && (high <=? pct) = true <->
  status = "Charging" /\ high <= pct.
Proof. rewrite andb_true_iff, String.eqb_eq, Z.leb_le. tauto. Qed.

Lemma low_crossing_iff :
  String.eqb status "Discharging" && (pct <=? low) = true <->
  status = "Discharging" /\ pct <= low.
Proof. rewrite andb_true_iff, String.eqb_eq, Z.leb_le. tauto. Qed.

Lemma neutral_band_iff :
  (low <? pct) && (pct <? high) = true <-> low < pct < high.
Proof. rewrite andb_true_iff, !Z.ltb_lt. tauto. Qed.

(** Deciding again on what the first decision left notifies nothing. *)
Lemma decide_twice_silent (st : string) :
  action (decide pct status low high
            (state_after st (decide pct status low high st))) = None.
Proof.
  branches.
  - destruct (String.eqb st "notified_high") eqn:E; simpl; [rewrite E |]; reflexivity.
  - destruct (String.eqb st "notified_low") eqn:E; simpl; [rewrite E |]; reflexivity.
  - destruct (String.eqb st "none") eqn:E; simpl; [rewrite E |]; reflexivity.
  - reflexivity.
Qed.

Lemma decide_suppressed_or_other (st : string) :
  suppressed_or_other pct status low high st ->
  decide pct status low high st = NoChange.
Proof.
  intros [(Hs & Hp & Hst) | [(Hs & Hp & Hst) | (Hh & Hl & Hb)]].
  - unfold decide.
    rewrite (proj2 high_crossing_iff (conj Hs Hp)). subst st. reflexivity.
  - branches.
    + apply high_crossing_iff in Hhigh. destruct Hhigh as [Hc _].
      rewrite Hs in Hc. discriminate.
    + subst st. reflexivity.
    + rewrite (proj2 low_crossing_iff (conj Hs Hp)) in Hlow. discriminate.
    + rewrite (proj2 low_crossing_iff (conj Hs Hp)) in Hlow. discriminate.
  - branches.
    + apply high_crossing_iff in Hhigh. contradiction.
    + apply low_crossing_iff in Hlow. contradiction.
    + apply neutral_band_iff in Hband. contradiction.
    + reflexivity.
Qed.

(** A token that is neither "notified_high" nor "notified_low" decides like
    "none", except that the neutral band clears it. *)
Lemma decide_unknown_token (tok : string) :
  tok <> "notified_high" -> tok <> "notified_low" ->
  action (decide pct status low high tok) =
  action (decide pct status low high "none") /\
  (decide pct status low high tok = decide pct status low high "none" \/
   (low < pct < high /\ decide pct status low high tok = ResetState /\
    decide pct status low high "none" = NoChange)).
Proof.
  intros Hh Hl.
  apply String.eqb_neq in Hh. apply String.eqb_neq in Hl.
  branches.
  - rewrite Hh. simpl. auto.
  - rewrite Hl. simpl. auto.
  - apply neutral_band_iff in Hband.
    destruct (String.eqb tok "none"); simpl; auto.
  - auto.
Qed.

End Decide.

Section NotifyStep.

Variables (low high pct : Z) (status : string).

(** On a state directory in working order the step never raises, sends
    exactly the decision's notification, and leaves the file reading back
    as [state_after] says. *)
Lemma notify_step_healthy (c : option string) :
  let o := notify_step low high pct status (healthy c) in
  let d := decide pct status low high (read_state (healthy c)) in
  raised o = None /\
  (exists c', file o = healthy c') /\
  read_state (file o) = state_after (read_state (healthy c)) d /\
  existsb is_notification (events o) =
    match action d with Some _ => true | None => false end.
Proof.
  cbv zeta. unfold notify_step.
  destruct (decide pct status low high (read_state (healthy c))) eqn:D; simpl.
  - repeat split; try reflexivity. exists (Some "notified_high"). reflexivity.
  - repeat split; try reflexivity. exists (Some "notified_low"). reflexivity.
  - repeat split; try reflexivity.
    + destruct c; eexists; reflexivity.
    + destruct c; reflexivity.
  - repeat split; eauto.
Qed.

(** A step never raises while the state directory can be written to, and
    it leaves it so. *)
Lemma notify_step_writable (f : StateFile) :
  writable f = true ->
  raised (notify_step low high pct status f) = None /\
  writable (file (notify_step low high pct status f)) = true.
Proof.
  intros W. unfold notify_step, write_state, clear_state. rewrite W.
  destruct (decide pct status low high (read_state f)); simpl; auto.
  destruct (content f); [destruct (removable f) |]; simpl; auto.
Qed.

(** A step that notifies raises once the state directory cannot be written
    to: the notification is out, the state is not recorded. *)
Lemma notify_step_unwritable (f : StateFile) :
  writable f = false ->
  action (decide pct status low high (read_state f)) <> None ->
  raised (notify_step low high pct status f) = Some OSError /\
  file (notify_step low high pct status f) = f /\
  existsb is_notification (events (notify_step low high pct status f)) = true.
Proof.
  intros W. unfold notify_step, write_state. rewrite W.
  destruct (decide pct status low high (read_state f)); simpl; intros A;
    auto; congruence.
Qed.

End NotifyStep.

Section PollLoop.

Variables (low high : Z).

Lemma one_iteration_writable (force : option string) (paths : list BatteryDir)
    (f : StateFile) :
  writable f = true ->
  raised (one_iteration low high force paths f) = None /\
  writable (file (one_iteration low high force paths f)) = true.
Proof.
  intros W. unfold one_iteration.
  match goal with
  | |- context [match ?r with Raise _ => _ | Return _ => _ end] =>
      destruct r as [e | [pct status]]
  end.
  - simpl. auto.
  - apply notify_step_writable. exact W.
Qed.

(** While the state directory can be written to, no cycle ends the loop:
    what [battery_info] raises is logged and the cycle skipped. *)
Lemma daemon_loop_writable (cycles : list (list BatteryDir)) :
  forall f : StateFile,
    writable f = true ->
    raised (daemon_loop low high cycles f) = None.
Proof.
  induction cycles as [| paths rest IH]; intros f W; simpl.
  - reflexivity.
  - destruct (one_iteration_writable None paths f W) as [R W'].
    rewrite R. simpl. apply IH. exact W'.
Qed.

End PollLoop.

Section StateMachineClaims.

(** C2. With low=20 and high=80 and no prior state, the readings
    (85,Charging), (85,Charging), (50,Discharging), (15,Discharging),
    (15,Discharging), (50,Unknown) give the actions high, none, none with
    the state cleared, low, none, none with the state cleared; and the poll
    loop run on batteries reporting these readings sends exactly the two
    notifications and writes and clears the state file accordingly. *)
Theorem hysteresis_sequence :
  run_decide 20 80
    [(85, "Charging"); (85, "Charging"); (50, "Discharging");
     (15, "Discharging"); (15, "Discharging"); (50, "Unknown")] "none" =
    [(Some High, "notified_high"); (None, "notified_high"); (None, "none");
     (Some Low, "notified_low"); (None, "notified_low"); (None, "none")] /\
  daemon_loop 20 80
    [[capacity_dir 85 "Charging"]; [capacity_dir 85 "Charging"];
     [capacity_dir 50 "Discharging"]; [capacity_dir 15 "Discharging"];
     [capacity_dir 15 "Discharging"]; [capacity_dir 50 "Unknown"]]
    (healthy None) =
    {| events := [Notified High 85 80; StateWritten "notified_high";
                  StateCleared;
                  Notified Low 15 20; StateWritten "notified_low";
                  StateCleared];
       file := healthy None;
       raised := None |}.
Proof. split; vm_compute; reflexivity. Qed.

(** C3. For every reading, thresholds low < high and prior state, deciding
    a second time on the same reading with the state the first decision
    left emits no notification; on a state directory in working order the
    second run of the step sends none either. *)
Theorem decide_idempotent (pct : Z) (status : string) (low high : Z)
    (st : string) (Hlt : low < high) :
  action (decide pct status low high
            (state_after st (decide pct status low high st))) = None /\
  forall c : option string,
    existsb is_notification
      (events (notify_step low high pct status
                 (file (notify_step low high pct status (healthy c))))) = false.
Proof.
  split; [apply decide_twice_silent |].
  intros c.
  destruct (notify_step_healthy low high pct status c) as (_ & [c' Hf] & Hread & _).
  rewrite Hf in *.
  destruct (notify_step_healthy low high pct status c') as (_ & _ & _ & Hev).
  rewrite Hev, Hread, decide_twice_silent. reflexivity.
Qed.

(** C3 at a high crossing met without prior state. *)
Lemma decide_idempotent_witness :
  action (decide 85 "Charging" 20 80
            (state_after "none" (decide 85 "Charging" 20 80 "none"))) = None /\
  forall c : option string,
    existsb is_notification
      (events (notify_step 20 80 85 "Charging"
                 (file (notify_step 20 80 85 "Charging" (healthy c))))) = false.
Proof. apply (decide_idempotent 85 "Charging" 20 80 "none"). lia. Defined.

(** C4, at a failing input. A failed read of the state is taken as "none",
    whatever the file holds, and a failed delete is swallowed; but
    [write_state] catches nothing and [one_iteration] does not guard the
    call: on a state directory that cannot be written to, the cycle that
    notifies a high crossing raises [OSError] after sending the
    notification. *)
Theorem write_failure_propagates (c : option string) (w r : bool) :
  read_state {| content := c; readable := false;
                writable := w; removable := r |} = "none" /\
  clear_state {| content := c; readable := true;
                 writable := w; removable := false |} =
    {| content := c; readable := true; writable := w; removable := false |} /\
  one_iteration 20 80 None [capacity_dir 85 "Charging"] (read_only None) =
    {| events := [Notified High 85 80];
       file := read_only None;
       raised := Some OSError |}.
Proof.
  repeat split.
  - unfold read_state; simpl. destruct c; reflexivity.
  - unfold clear_state; simpl. destruct c; reflexivity.
Qed.

(** C6, at a failing input. What [battery_info] raises is logged and the
    cycle skipped (first run below), but the [OSError] of a failed state
    write leaves [one_iteration] and the loop, which has no [except]: the
    second cycle, a low crossing, is never polled (second run). *)
Theorem daemon_loop_ends_on_write_failure :
  daemon_loop 20 80 [[]; [capacity_dir 15 "Discharging"]] (healthy None) =
    {| events := [LogError RuntimeError;
                  Notified Low 15 20; StateWritten "notified_low"];
       file := healthy (Some "notified_low");
       raised := None |} /\
  daemon_loop 20 80
    [[capacity_dir 85 "Charging"]; [capacity_dir 15 "Discharging"]]
    (read_only None) =
    {| events := [Notified High 85 80];
       file := read_only None;
       raised := Some OSError |}.
Proof. split; vm_compute; reflexivity. Qed.

(** C9. In a suppressed case (a high crossing already notified, a low
    crossing already notified) and in any other combination that is no
    crossing and lies outside the neutral band, the step changes nothing:
    the decision is [NoChange], the state file is the one it was, and no
    write or delete of it is attempted. *)
Theorem suppressed_or_other_leaves_state (low high pct : Z) (status : string)
    (f : StateFile)
    (Hcase : suppressed_or_other pct status low high (read_state f)) :
  decide pct status low high (read_state f) = NoChange /\
  notify_step low high pct status f =
    {| events := []; file := f; raised := None |} /\
  existsb touches_state (events (notify_step low high pct status f)) = false.
Proof.
  pose proof (decide_suppressed_or_other _ _ _ _ _ Hcase) as D.
  unfold notify_step. rewrite D. simpl. auto.
Qed.

(** C9 at 85 percent while discharging, with a low crossing on record. *)
Lemma suppressed_or_other_leaves_state_witness :
  notify_step 20 80 85 "Discharging" (healthy (Some "notified_low")) =
    {| events := []; file := healthy (Some "notified_low"); raised := None |}.
Proof.
  apply (suppressed_or_other_leaves_state 20 80 85 "Discharging"
           (healthy (Some "notified_low"))).
  right. right. repeat split.
  - intros [H _]. discriminate H.
  - intros [_ H]. lia.
  - intros [_ H]. lia.
Defined.




End StateMachineClaims.

(** * Further properties of the aggregation *)

Section AccumulatorFacts.

(** One round of the loop adds the device's contribution and its status. *)
Lemma accumulate_contribution (a : Acc) (d : DeviceReading) :
  accumulate a d =
    (c <- contribution d ;;
     Return {| total_energy := PrimFloat.add (total_energy a) (fst (fst c));
               total_capacity_weight :=
                 PrimFloat.add (total_capacity_weight a) (snd (fst c));
               statuses := statuses a ++ reported [d];
               capacities := capacities a ++ snd c |}).
Proof.
  assert (S : statuses a ++ reported [d] =
              match status d with
              | Some s => if Py.str_truthy s then statuses a ++ [s] else statuses a
              | None => statuses a
              end).
  { unfold reported; simpl. destruct (status d) as [s |];
      [destruct (Py.str_truthy s) |]; simpl; rewrite ?app_nil_r; reflexivity. }
  unfold accumulate, contribution. rewrite S.
  destruct (energy_now d) as [en |], (energy_full d) as [ef |]; simpl;
    try destruct (Py.float_truthy ef); simpl;
    try (destruct (try_except _ _); simpl; rewrite ?app_nil_r; reflexivity);
    destruct (capacity d) as [c |]; simpl; rewrite ?app_nil_r;
    try reflexivity;
    destruct (Py.float_of_int c); reflexivity.
Qed.


Lemma accumulate_all_statuses (ds : list DeviceReading) :
  forall a a' : Acc,
    accumulate_all a ds = Return a' ->
    statuses a' = statuses a ++ reported ds.
Proof.
  induction ds as [| d ds IH]; intros a a'.
  - simpl. intros H; inversion H; subst. rewrite app_nil_r. reflexivity.
  - rewrite reported_cons. cbn [accumulate_all].
    rewrite accumulate_contribution.
    destruct (contribution d) as [e | c]; cbn [bind]; [discriminate |].
    intros H. rewrite (IH _ _ H). cbn [statuses].
    rewrite app_assoc. reflexivity.
Qed.

(** The numbers a run of the loop ends with depend on the numbers it starts
    with and on the numeric fields of the readings only. *)
Lemma accumulate_all_numbers (f : DeviceReading -> option string)
    (ds : list DeviceReading) :
  forall a b : Acc,
    numbers a = numbers b ->
    match accumulate_all a ds, accumulate_all b (map (with_status f) ds) with
    | Return a', Return b' => numbers a' = numbers b'
    | Raise e, Raise e' => e = e'
    | _, _ => False
    end.
Proof.
  induction ds as [| d ds IH]; intros a b N; simpl.
  - exact N.
  - rewrite !accumulate_contribution.
    change (contribution (with_status f d)) with (contribution d).
    destruct (contribution d) as [e | c]; simpl; [reflexivity |].
    apply IH. unfold numbers in *. simpl. inversion N. reflexivity.
Qed.

Lemma overall_pct_numbers (a b : Acc) :
  numbers a = numbers b -> overall_pct a = overall_pct b.
Proof.
  unfold numbers, overall_pct. intros N. inversion N. reflexivity.
Qed.

(** The status of a returned aggregate is [overall_status] of the statuses
    reported, in device order. *)
Lemma aggregate_status (ds : list DeviceReading) :
  returned (aggregate ds) = true ->
  status_of (aggregate ds) = Return (overall_status (reported ds)).
Proof.
  destruct ds as [| d ds]; [discriminate |].
  unfold aggregate.
  destruct (accumulate_all acc0 (d :: ds)) as [e | a] eqn:A; simpl;
    [discriminate |].
  destruct (overall_pct a); simpl; [discriminate |].
  intros _. rewrite (accumulate_all_statuses _ _ _ A). reflexivity.
Qed.

Lemma says_reported (word : string) (ds : list DeviceReading)
    (d : DeviceReading) (s : string) :
  In d ds -> status d = Some s -> says word s = true -> word <> "" ->
  existsb (says word) (reported ds) = true.
Proof.
  intros Hin Hs Hw Hne. apply existsb_exists. exists s. split; [| exact Hw].
  unfold reported. apply in_flat_map. exists d. split; [exact Hin |].
  rewrite Hs. destruct s as [| c s]; simpl; auto.
  unfold says in Hw. simpl in Hw. destruct word; [congruence | discriminate].
Qed.

Lemma nobody_says (word : string) (ds : list DeviceReading) :
  (forall d s, In d ds -> status d = Some s -> says word s = false) ->
  existsb (says word) (reported ds) = false.
Proof.
  intros H. apply not_true_is_false. intros E.
  apply existsb_exists in E. destruct E as (s & Hin & Hs).
  unfold reported in Hin. apply in_flat_map in Hin.
  destruct Hin as (d & Hd & Hsd).
  destruct (status d) as [s' |] eqn:S; [| contradiction].
  destruct (Py.str_truthy s'); [| contradiction].
  destruct Hsd as [-> | []]. rewrite (H d s Hd S) in Hs. discriminate.
Qed.

End AccumulatorFacts.

Section StatusPriority.

Lemma overall_status_priority (sts : list string) :
  overall_status sts =
    if existsb (says "charging") sts then "Charging"
    else if existsb (says "discharging") sts then "Discharging"
    else if existsb (says "full") sts then "Full"
    else hd "Unknown" sts.
Proof. reflexivity. Qed.

Variable ds : list DeviceReading.
Hypothesis Hret : returned (aggregate ds) = true.

(** X1. When the aggregation returns and some device's status is
    "charging" in any letter case, the overall status is "Charging",
    whatever the other devices report. *)
Theorem charging_takes_precedence (d : DeviceReading) (s : string) :
  In d ds -> status d = Some s -> Py.lower s = "charging" ->
  status_of (aggregate ds) = Return "Charging".
Proof.
  intros Hin Hs Hl. rewrite (aggregate_status ds Hret), overall_status_priority.
  rewrite (says_reported "charging" ds d s Hin Hs); [reflexivity | | discriminate].
  unfold says. rewrite Hl. reflexivity.
Qed.

(** X2. When no device is charging and some device's status is
    "discharging" in any letter case, the overall status is "Discharging". *)
Theorem discharging_comes_second (d : DeviceReading) (s : string) :
  (forall d' s', In d' ds -> status d' = Some s' -> says "charging" s' = false) ->
  In d ds -> status d = Some s -> Py.lower s = "discharging" ->
  status_of (aggregate ds) = Return "Discharging".
Proof.
  intros Hno Hin Hs Hl.
  rewrite (aggregate_status ds Hret), overall_status_priority.
  rewrite (nobody_says "charging" ds Hno).
  rewrite (says_reported "discharging" ds d s Hin Hs); [reflexivity | | discriminate].
  unfold says. rewrite Hl. reflexivity.
Qed.

(** X3. When no device is charging or discharging and some device's status
    is "full" in any letter case, the overall status is "Full". *)
Theorem full_comes_third (d : DeviceReading) (s : string) :
  (forall d' s', In d' ds -> status d' = Some s' -> says "charging" s' = false) ->
  (forall d' s', In d' ds -> status d' = Some s' -> says "discharging" s' = false) ->
  In d ds -> status d = Some s -> Py.lower s = "full" ->
  status_of (aggregate ds) = Return "Full".
Proof.
  intros Hc Hd Hin Hs Hl.
  rewrite (aggregate_status ds Hret), overall_status_priority.
  rewrite (nobody_says "charging" ds Hc), (nobody_says "discharging" ds Hd).
  rewrite (says_reported "full" ds d s Hin Hs); [reflexivity | | discriminate].
  unfold says. rewrite Hl. reflexivity.
Qed.

(** X4. When no device's status is "charging", "discharging" or "full",
    the overall status is the first non-empty status in device order, as
    the device wrote it, and "Unknown" when no device has one. *)
Theorem unmatched_status_is_first_raw :
  (forall d s, In d ds -> status d = Some s -> says "charging" s = false) ->
  (forall d s, In d ds -> status d = Some s -> says "discharging" s = false) ->
  (forall d s, In d ds -> status d = Some s -> says "full" s = false) ->
  status_of (aggregate ds) = Return (hd "Unknown" (reported ds)).
Proof.
  intros Hc Hd Hf.
  rewrite (aggregate_status ds Hret), overall_status_priority.
  rewrite (nobody_says "charging" ds Hc), (nobody_says "discharging" ds Hd),
          (nobody_says "full" ds Hf).
  reflexivity.
Qed.

End StatusPriority.

Section StatusPriorityWitnesses.

(** X1 on three batteries, one of them charging. *)
Lemma charging_takes_precedence_witness :
  status_of (aggregate [capacity_device 40 "Discharging";
                        capacity_device 90 "CHARGING";
                        capacity_device 100 "Full"]) = Return "Charging".
Proof.
  apply (charging_takes_precedence
           [capacity_device 40 "Discharging"; capacity_device 90 "CHARGING";
            capacity_device 100 "Full"] eq_refl
           (capacity_device 90 "CHARGING") "CHARGING").
  - right; left; reflexivity.
  - reflexivity.
  - reflexivity.
Defined.

(** X2 on a full battery and a discharging one. *)
Lemma discharging_comes_second_witness :
  status_of (aggregate [capacity_device 100 "full";
                        capacity_device 40 "DisCharging"]) =
  Return "Discharging".
Proof.
  apply (discharging_comes_second
           [capacity_device 100 "full"; capacity_device 40 "DisCharging"]
           eq_refl (capacity_device 40 "DisCharging") "DisCharging").
  - intros d' s' H E.
    destruct H as [H | [H | []]]; subst d'; inversion E; reflexivity.
  - right; left; reflexivity.
  - reflexivity.
  - reflexivity.
Defined.

(** X3 on a battery that is not charging and a full one. *)
Lemma full_comes_third_witness :
  status_of (aggregate [capacity_device 100 "Not charging";
                        capacity_device 100 "FULL"]) = Return "Full".
Proof.
  apply (full_comes_third
           [capacity_device 100 "Not charging"; capacity_device 100 "FULL"]
           eq_refl (capacity_device 100 "FULL") "FULL").
  - intros d' s' H E.
    destruct H as [H | [H | []]]; subst d'; inversion E; reflexivity.
  - intros d' s' H E.
    destruct H as [H | [H | []]]; subst d'; inversion E; reflexivity.
  - right; left; reflexivity.
  - reflexivity.
  - reflexivity.
Defined.

(** X4 on a battery without status, one not charging and one unknown. *)
Lemma unmatched_status_is_first_raw_witness :
  status_of (aggregate [ {| energy_now := None; energy_full := None;
                            capacity := Some 70; status := None |};
                         capacity_device 70 "Not charging";
                         capacity_device 70 "Unknown" ]) =
  Return "Not charging".
Proof.
  apply (unmatched_status_is_first_raw
           [ {| energy_now := None; energy_full := None;
                capacity := Some 70; status := None |};
             capacity_device 70 "Not charging";
             capacity_device 70 "Unknown" ] eq_refl).
  - intros d' s' H E.
    destruct H as [H | [H | [H | []]]]; subst d'; inversion E; reflexivity.
  - intros d' s' H E.
    destruct H as [H | [H | [H | []]]]; subst d'; inversion E; reflexivity.
  - intros d' s' H E.
    destruct H as [H | [H | [H | []]]]; subst d'; inversion E; reflexivity.
Defined.

End StatusPriorityWitnesses.

Section PercentFacts.

(** X5. The percentage, and whether the aggregation raises, do not depend on
    the status strings: relabelling the statuses of the devices in any way
    leaves the percentage (or the exception) the same. *)
Theorem percent_ignores_statuses (f : DeviceReading -> option string)
    (ds : list DeviceReading) :
  percent_of (aggregate (map (with_status f) ds)) = percent_of (aggregate ds).
Proof.
  destruct ds as [| d ds]; [reflexivity |].
  pose proof (accumulate_all_numbers f (d :: ds) acc0 acc0 eq_refl) as N.
  unfold aggregate. cbn [map].
  change (with_status f d :: map (with_status f) ds)
    with (map (with_status f) (d :: ds)).
  destruct (accumulate_all acc0 (d :: ds)) as [e | a];
    destruct (accumulate_all acc0 (map (with_status f) (d :: ds))) as [e' | b];
    try contradiction; cbn [bind percent_of].
  - subst. reflexivity.
  - rewrite (overall_pct_numbers a b N).
    destruct (overall_pct b); reflexivity.
Qed.

Lemma drained_reads_as_capacity_only (a : Acc) (p : BatteryDir) :
  drained p = true ->
  accumulate a (read_device (capacity_only p)) = accumulate a (read_device p).
Proof.
  unfold drained. intros D.
  destruct (file_energy_now p) as [x |] eqn:E; [| discriminate].
  destruct (file_charge_now p) eqn:C; [discriminate |].
  rewrite !accumulate_contribution.
  assert (R : reported [read_device (capacity_only p)] = reported [read_device p])
    by reflexivity.
  rewrite R.
  assert (K : contribution (read_device (capacity_only p)) =
              contribution (read_device p)).
  { unfold contribution, read_device. simpl. rewrite E, C.
    unfold Py.float_or, Py.float_truthy. rewrite D. reflexivity. }
  rewrite K. reflexivity.
Qed.

Lemma accumulate_all_drained (paths : list BatteryDir) :
  forall a : Acc,
    accumulate_all a
      (map read_device
         (map (fun p => if drained p then capacity_only p else p) paths)) =
    accumulate_all a (map read_device paths).
Proof.
  induction paths as [| p paths IH]; intros a; [reflexivity |].
  cbn [map accumulate_all].
  destruct (drained p) eqn:D.
  - rewrite (drained_reads_as_capacity_only a p D).
    destruct (accumulate a (read_device p)); cbn [bind]; [reflexivity | apply IH].
  - destruct (accumulate a (read_device p)); cbn [bind]; [reflexivity | apply IH].
Qed.

(** X6. A battery whose [energy_now] reads 0.0 and that has no [charge_now]
    file is read as if it had no energy files at all: [0.0 or None] is
    [None], so it enters the mean by its [capacity] file with weight 1 (or
    as 0 with weight 1), not with the weight of its [energy_full]. *)
Theorem drained_battery_falls_back_to_capacity (paths : list BatteryDir) :
  battery_info (map (fun p => if drained p then capacity_only p else p) paths) =
  battery_info paths.
Proof.
  unfold battery_info, aggregate.
  destruct paths as [| p paths]; [reflexivity |].
  rewrite <- (accumulate_all_drained (p :: paths) acc0).
  cbn [map]. reflexivity.
Qed.

(** Whether one battery with only a capacity of [c] aggregates to [c]. *)
Lemma lone_capacity_table :
  forallb
    (fun c =>
       match percent_of
               (aggregate [ {| energy_now := None; energy_full := None;
                               capacity := Some c; status := None |} ]) with
       | Return z => z =? c
       | Raise _ => false
       end)
    (map Z.of_nat (seq 0 101)) = true.
Proof. vm_compute. reflexivity. Qed.

(** X7. One battery that offers only a capacity percentage between 0 and
    100 aggregates to exactly that percentage, whatever its status. *)
Theorem lone_capacity_is_reported (c : Z) (st : option string) :
  0 <= c <= 100 ->
  percent_of (aggregate [ {| energy_now := None; energy_full := None;
                             capacity := Some c; status := st |} ]) = Return c.
Proof.
  intros Hc.
  change [ {| energy_now := None; energy_full := None;
              capacity := Some c; status := st |} ]
    with (map (with_status (fun _ => st))
            [ {| energy_now := None; energy_full := None;
                 capacity := Some c; status := None |} ]).
  pose proof (accumulate_all_numbers (fun _ => st)
                [ {| energy_now := None; energy_full := None;
                     capacity := Some c; status := None |} ]
                acc0 acc0 eq_refl) as N.
  pose proof lone_capacity_table as T.
  rewrite forallb_forall in T.
  assert (Hin : In c (map Z.of_nat (seq 0 101))).
  { apply in_map_iff. exists (Z.to_nat c). split; [lia |].
    apply in_seq. lia. }
  specialize (T c Hin).
  unfold aggregate in *. cbn [map] in *.
  destruct (accumulate_all acc0 _) as [e | a] in T, N |- *;
    [discriminate T |].
  destruct (accumulate_all acc0 _) as [e' | b] in N |- *;
    [contradiction |].
  cbn [bind percent_of] in *.
  rewrite <- (overall_pct_numbers a b N).
  destruct (overall_pct a) as [e | z]; cbn [bind fst] in *; [discriminate T |].
  apply Z.eqb_eq in T. subst. reflexivity.
Qed.

(** X7 at 42 percent, discharging. *)
Lemma lone_capacity_is_reported_witness :
  percent_of (aggregate [capacity_device 42 "Discharging"]) = Return 42.
Proof. apply (lone_capacity_is_reported 42 (Some "Discharging")). lia. Defined.

End PercentFacts.

(** * Further properties of the notification step *)

Section DecideCharacterised.

Variables (pct : Z) (status : string) (low high : Z) (st : string).

Lemma decide_notify_high_iff :
  decide pct status low high st = NotifyHigh <->
  status = "Charging" /\ high <= pct /\ st <> "notified_high".
Proof.
  split.
  - unfold decide.
    destruct (String.eqb status "Charging" && (high <=? pct)) eqn:C1.
    + apply high_crossing_iff in C1. destruct C1 as [Hs Hp].
      destruct (String.eqb st "notified_high") eqn:E; simpl; [discriminate |].
      apply String.eqb_neq in E. auto.
    + destruct (String.eqb status "Discharging" && (pct <=? low));
        [destruct (negb _); discriminate |].
      destruct ((low <? pct) && (pct <? high));
        [destruct (negb _); discriminate | discriminate].
  - intros (Hs & Hp & Hn). unfold decide.
    rewrite (proj2 (high_crossing_iff pct status high) (conj Hs Hp)).
    apply String.eqb_neq in Hn. rewrite Hn. reflexivity.
Qed.

Lemma decide_notify_low_iff :
  decide pct status low high st = NotifyLow <->
  status = "Discharging" /\ pct <= low /\ st <> "notified_low".
Proof.
  split.
  - unfold decide.
    destruct (String.eqb status "Charging" && (high <=? pct)) eqn:C1;
      [destruct (negb _); discriminate |].
    destruct (String.eqb status "Discharging" && (pct <=? low)) eqn:C2.
    + apply low_crossing_iff in C2. destruct C2 as [Hs Hp].
      destruct (String.eqb st "notified_low") eqn:E; simpl; [discriminate |].
      apply String.eqb_neq in E. auto.
    + destruct ((low <? pct) && (pct <? high));
        [destruct (negb _); discriminate | discriminate].
  - intros (Hs & Hp & Hn). unfold decide.
    destruct (String.eqb status "Charging" && (high <=? pct)) eqn:C1.
    + apply high_crossing_iff in C1. destruct C1 as [C1 _].
      rewrite Hs in C1. discriminate.
    + rewrite (proj2 (low_crossing_iff pct status low) (conj Hs Hp)).
      apply String.eqb_neq in Hn. rewrite Hn. reflexivity.
Qed.

Lemma decide_reset_iff :
  decide pct status low high st = ResetState <->
  low < pct < high /\ st <> "none".
Proof.
  split.
  - unfold decide.
    destruct (String.eqb status "Charging" && (high <=? pct));
      [destruct (negb _); discriminate |].
    destruct (String.eqb status "Discharging" && (pct <=? low));
      [destruct (negb _); discriminate |].
    destruct ((low <? pct) && (pct <? high)) eqn:C3; [| discriminate].
    apply neutral_band_iff in C3.
    destruct (String.eqb st "none") eqn:E; simpl; [discriminate |].
    apply String.eqb_neq in E. auto.
  - intros (Hb & Hn). unfold decide.
    destruct (String.eqb status "Charging" && (high <=? pct)) eqn:C1.
    + apply high_crossing_iff in C1. lia.
    + destruct (String.eqb status "Discharging" && (pct <=? low)) eqn:C2.
      * apply low_crossing_iff in C2. lia.
      * rewrite (proj2 (neutral_band_iff pct low high) Hb).
        apply String.eqb_neq in Hn. rewrite Hn. reflexivity.
Qed.

(** X8. A high notification is sent exactly when the battery is charging
    at or above [high] and the state is not "notified_high"; a low one
    exactly when it is discharging at or below [low] and the state is not
    "notified_low". *)
Theorem notification_iff_new_crossing :
  (action (decide pct status low high st) = Some High <->
   status = "Charging" /\ high <= pct /\ st <> "notified_high") /\
  (action (decide pct status low high st) = Some Low <->
   status = "Discharging" /\ pct <= low /\ st <> "notified_low").
Proof.
  rewrite <- decide_notify_high_iff, <- decide_notify_low_iff.
  destruct (decide pct status low high st); simpl;
    repeat split; intros; try discriminate; reflexivity.
Qed.

(** X9. The state is cleared exactly when the percentage lies strictly
    between [low] and [high] and the state read is not "none", whatever
    the status. *)
Theorem state_cleared_iff_neutral_band :
  decide pct status low high st = ResetState <->
  low < pct < high /\ st <> "none".
Proof. exact decide_reset_iff. Qed.

(** X10. With thresholds that leave no percentage strictly between them
    ([high <= low + 1], which the code accepts), the state is never
    cleared: a step keeps the state or records a notification. *)
Theorem no_band_no_reset :
  high <= low + 1 ->
  decide pct status low high st <> ResetState /\
  (state_after st (decide pct status low high st) = st \/
   action (decide pct status low high st) <> None).
Proof.
  intros Hd.
  assert (N : decide pct status low high st <> ResetState).
  { intros R. apply decide_reset_iff in R. lia. }
  split; [exact N |].
  destruct (decide pct status low high st); simpl; auto;
    try (right; discriminate).
Qed.

End DecideCharacterised.

(** X10 with the thresholds swapped: low 80, high 20, at 50 percent. *)
Lemma no_band_no_reset_witness :
  decide 50 "Full" 80 20 "notified_high" <> ResetState /\
  (state_after "notified_high" (decide 50 "Full" 80 20 "notified_high") =
     "notified_high" \/
   action (decide 50 "Full" 80 20 "notified_high") <> None).
Proof. apply (no_band_no_reset 50 "Full" 80 20 "notified_high"). lia. Defined.

Section Excursions.

Variables (low high : Z).

Lemma stays_high_keeps (r : Z * string) :
  stays_high low high r ->
  decide (fst r) (snd r) low high "notified_high" = NoChange.
Proof.
  intros [Hb Hl].
  destruct (decide (fst r) (snd r) low high "notified_high") eqn:D;
    [| | | reflexivity].
  - apply decide_notify_high_iff in D. destruct D as (_ & _ & D). congruence.
  - apply decide_notify_low_iff in D. tauto.
  - apply decide_reset_iff in D. tauto.
Qed.

Lemma stays_low_keeps (r : Z * string) :
  stays_low low high r ->
  decide (fst r) (snd r) low high "notified_low" = NoChange.
Proof.
  intros [Hb Hh].
  destruct (decide (fst r) (snd r) low high "notified_low") eqn:D;
    [| | | reflexivity].
  - apply decide_notify_high_iff in D. tauto.
  - apply decide_notify_low_iff in D. destruct D as (_ & _ & D). congruence.
  - apply decide_reset_iff in D. tauto.
Qed.

(** X11. Once a high crossing is notified, nothing more is sent and the
    state stays "notified_high" for as long as the readings neither enter
    the neutral band nor cross low, however many they are and whatever
    their status. *)
Theorem high_notified_once (readings : list (Z * string)) :
  Forall (stays_high low high) readings ->
  Forall (fun o => fst o = None /\ snd o = "notified_high")
    (run_decide low high readings "notified_high").
Proof.
  induction readings as [| [pct status] rest IH]; intros H; simpl.
  - constructor.
  - inversion H as [| r rs Hr Hrest]; subst.
    pose proof (stays_high_keeps (pct, status) Hr) as K. simpl in K.
    rewrite K. simpl.
    constructor; [split; reflexivity | apply IH; exact Hrest].
Qed.

(** X12. Once a low crossing is notified, nothing more is sent and the
    state stays "notified_low" for as long as the readings neither enter
    the neutral band nor cross high. *)
Theorem low_notified_once (readings : list (Z * string)) :
  Forall (stays_low low high) readings ->
  Forall (fun o => fst o = None /\ snd o = "notified_low")
    (run_decide low high readings "notified_low").
Proof.
  induction readings as [| [pct status] rest IH]; intros H; simpl.
  - constructor.
  - inversion H as [| r rs Hr Hrest]; subst.
    pose proof (stays_low_keeps (pct, status) Hr) as K. simpl in K.
    rewrite K. simpl.
    constructor; [split; reflexivity | apply IH; exact Hrest].
Qed.

End Excursions.

(** X11 on a charge that wobbles at and above the threshold of 80. *)
Lemma high_notified_once_witness :
  Forall (fun o => fst o = None /\ snd o = "notified_high")
    (run_decide 20 80 [(80, "Charging"); (95, "Full"); (80, "Discharging");
                       (100, "Charging")] "notified_high").
Proof.
  apply (high_notified_once 20 80).
  repeat constructor; simpl; try lia; intros [E _]; discriminate E.
Defined.

(** X12 on a charge that wobbles at and below the threshold of 20. *)
Lemma low_notified_once_witness :
  Forall (fun o => fst o = None /\ snd o = "notified_low")
    (run_decide 20 80 [(20, "Discharging"); (5, "Unknown"); (20, "Charging");
                       (0, "Discharging")] "notified_low").
Proof.
  apply (low_notified_once 20 80).
  repeat constructor; simpl; try lia; intros [E _]; discriminate E.
Defined.

(** * Further properties of the poll cycle and the loop *)

Section CycleFacts.

Variables (low high : Z).

Lemma notify_step_justified (pct : Z) (status : string) (f : StateFile) :
  Forall (justified low high) (events (notify_step low high pct status f)).
Proof.
  unfold notify_step, write_state.
  destruct (decide pct status low high (read_state f)) eqn:D.
  - apply decide_notify_high_iff in D. destruct D as (_ & Hp & _).
    destruct (writable f); simpl.
    + apply Forall_cons; [split; [reflexivity | exact Hp] |].
      apply Forall_cons; [left; reflexivity | apply Forall_nil].
    + apply Forall_cons; [split; [reflexivity | exact Hp] | apply Forall_nil].
  - apply decide_notify_low_iff in D. destruct D as (_ & Hp & _).
    destruct (writable f); simpl.
    + apply Forall_cons; [split; [reflexivity | exact Hp] |].
      apply Forall_cons; [right; reflexivity | apply Forall_nil].
    + apply Forall_cons; [split; [reflexivity | exact Hp] | apply Forall_nil].
  - simpl. apply Forall_cons; [exact I | apply Forall_nil].
  - simpl. apply Forall_nil.
Qed.

Lemma one_iteration_justified (force : option string)
    (paths : list BatteryDir) (f : StateFile) :
  Forall (justified low high)
    (events (one_iteration low high force paths f)).
Proof.
  unfold one_iteration.
  match goal with
  | |- context [match ?r with Raise _ => _ | Return _ => _ end] =>
      destruct r as [e | [pct status]]
  end.
  - simpl. apply Forall_cons; [exact I | apply Forall_nil].
  - apply notify_step_justified.
Qed.

(** X13. Whatever the batteries report in whatever number of cycles, every
    high notification the loop sends carries the threshold [high] and a
    percentage at or above it, every low notification the threshold [low]
    and a percentage at or below it, and nothing but "notified_high" and
    "notified_low" is ever written to the state file. *)
Theorem loop_events_justified (cycles : list (list BatteryDir)) :
  forall f : StateFile,
    Forall (justified low high) (events (daemon_loop low high cycles f)).
Proof.
  induction cycles as [| paths rest IH]; intros f; simpl.
  - constructor.
  - pose proof (one_iteration_justified None paths f) as J.
    destruct (raised (one_iteration low high None paths f)); [exact J |].
    simpl. apply Forall_app. split; [exact J | apply IH].
Qed.

(** With the thresholds parsed, the loop runs every cycle to its end while
    the state directory can be written to, and the directory stays so. *)
Lemma daemon_loop_keeps_writable (cycles : list (list BatteryDir)) :
  forall f : StateFile,
    writable f = true ->
    raised (daemon_loop low high cycles f) = None /\
    writable (file (daemon_loop low high cycles f)) = true.
Proof.
  induction cycles as [| paths rest IH]; intros f W; simpl.
  - auto.
  - destruct (one_iteration_writable low high None paths f W) as [R W'].
    rewrite R. simpl. apply IH. exact W'.
Qed.

(** X15. The loop has no memory but the state file: running it over
    [c1 ++ c2] is running it over [c1] and then, unless that raised, over
    [c2] from the state file the first run left, as after a restart of
    the process. *)
Theorem loop_resumes_from_state_file (c1 c2 : list (list BatteryDir)) :
  forall f : StateFile,
    daemon_loop low high (c1 ++ c2) f =
      match raised (daemon_loop low high c1 f) with
      | Some _ => daemon_loop low high c1 f
      | None =>
          {| events := events (daemon_loop low high c1 f) ++
                       events (daemon_loop low high c2
                                 (file (daemon_loop low high c1 f)));
             file := file (daemon_loop low high c2
                             (file (daemon_loop low high c1 f)));
             raised := raised (daemon_loop low high c2
                                 (file (daemon_loop low high c1 f))) |}
      end.
Proof.
  induction c1 as [| paths rest IH]; intros f.
  - simpl. destruct (daemon_loop low high c2 f); reflexivity.
  - cbn [app daemon_loop].
    destruct (raised (one_iteration low high None paths f)) eqn:R.
    + rewrite R. reflexivity.
    + rewrite ?R, IH.
      destruct (daemon_loop low high rest
                  (file (one_iteration low high None paths f)))
        as [ev1 f1 [e1 |]]; cbn [events file raised].
      * reflexivity.
      * rewrite app_assoc. reflexivity.
Qed.


End CycleFacts.

Section ConfiguredLoop.

Variable int : string -> result Z.
Variables (cfg : Dict) (low high : Z).
Hypothesis Hlow : int (cfg_get cfg "LOW" "20") = Return low.
Hypothesis Hhigh : int (cfg_get cfg "HIGH" "80") = Return high.
Hypothesis Hdir : dict_get "STATE_DIR" cfg <> None.

Lemma one_iteration_cfg_parsed (force : option string)
    (paths : list BatteryDir) (f : StateFile) :
  one_iteration_cfg int cfg force paths f =
  one_iteration low high force paths f.
Proof.
  unfold one_iteration_cfg. rewrite Hlow, Hhigh.
  destruct (dict_get "STATE_DIR" cfg); [reflexivity | contradiction].
Qed.

Lemma poll_cycles_parsed (cycles : list (list BatteryDir)) :
  forall f : StateFile,
    poll_cycles int cfg cycles f = daemon_loop low high cycles f.
Proof.
  induction cycles as [| paths rest IH]; intros f; [reflexivity |].
  cbn [poll_cycles daemon_loop]. rewrite one_iteration_cfg_parsed, IH.
  reflexivity.
Qed.

(** X14. When [int] accepts the configured LOW, HIGH and POLL_INTERVAL and
    STATE_DIR is set, the loop run from the configuration is the loop on
    the parsed thresholds, and while the state directory can be written
    to it runs every cycle to its end: no battery reading, missing
    battery or overflowing figure makes it raise, and the directory stays
    writable. *)
Theorem loop_survives_while_writable (poll : Z)
    (cycles : list (list BatteryDir)) (f : StateFile) :
  int (cfg_get cfg "POLL_INTERVAL" "60") = Return poll ->
  writable f = true ->
  daemon_loop_cfg int cfg cycles f = daemon_loop low high cycles f /\
  raised (daemon_loop_cfg int cfg cycles f) = None /\
  writable (file (daemon_loop_cfg int cfg cycles f)) = true.
Proof.
  intros Hp W.
  assert (E : daemon_loop_cfg int cfg cycles f = daemon_loop low high cycles f).
  { unfold daemon_loop_cfg. rewrite Hp. apply poll_cycles_parsed. }
  rewrite E. split; [reflexivity |].
  apply daemon_loop_keeps_writable. exact W.
Qed.

End ConfiguredLoop.

Section ConfigurationErrors.

Variable int : string -> result Z.

(** X30. The configuration values are parsed outside any [try]: when
    [int] rejects POLL_INTERVAL the loop raises before its first cycle,
    and when it rejects LOW or HIGH the first cycle raises before any
    battery or state file is read, also on a writable state directory. *)
Theorem rejected_setting_ends_loop (cfg : Dict) (e : exn)
    (paths : list BatteryDir) (rest : list (list BatteryDir))
    (f : StateFile) :
  int (cfg_get cfg "POLL_INTERVAL" "60") = Raise e \/
  int (cfg_get cfg "LOW" "20") = Raise e \/
  ((exists low, int (cfg_get cfg "LOW" "20") = Return low) /\
   int (cfg_get cfg "HIGH" "80") = Raise e) ->
  exists e',
    daemon_loop_cfg int cfg (paths :: rest) f =
      {| events := []; file := f; raised := Some e' |}.
Proof.
  unfold daemon_loop_cfg.
  destruct (int (cfg_get cfg "POLL_INTERVAL" "60")) as [ep | poll] eqn:P.
  - intros _. exists ep. reflexivity.
  - cbn [poll_cycles]. unfold one_iteration_cfg.
    intros [H | [H | [[low Hl] H]]].
    + discriminate.
    + rewrite H. exists e. reflexivity.
    + rewrite Hl, H. exists e. reflexivity.
Qed.

End ConfigurationErrors.

(** X14 on the default configuration, with an empty battery list followed
    by a battery past each threshold. *)
Lemma loop_survives_while_writable_witness :
  daemon_loop_cfg int_of_digits
    (defaults "/state" "/log")
    [[]; [capacity_dir 85 "Charging"]; [capacity_dir 15 "Discharging"]]
    (healthy None) =
  daemon_loop 20 80
    [[]; [capacity_dir 85 "Charging"]; [capacity_dir 15 "Discharging"]]
    (healthy None) /\
  raised (daemon_loop_cfg int_of_digits
            (defaults "/state" "/log")
            [[]; [capacity_dir 85 "Charging"]; [capacity_dir 15 "Discharging"]]
            (healthy None)) = None /\
  writable (file (daemon_loop_cfg int_of_digits
            (defaults "/state" "/log")
            [[]; [capacity_dir 85 "Charging"]; [capacity_dir 15 "Discharging"]]
            (healthy None))) = true.
Proof.
  apply (loop_survives_while_writable int_of_digits
           (defaults "/state" "/log") 20 80 eq_refl eq_refl
           ltac:(discriminate) 60).
  - reflexivity.
  - reflexivity.
Defined.

(** X30 on a configuration whose env file has the line [HIGH=]. *)
Lemma rejected_setting_ends_loop_witness :
  exists e',
    daemon_loop_cfg int_of_digits
      (dict_set "HIGH" "" (defaults "/state" "/log"))
      ([capacity_dir 85 "Charging"] :: []) (healthy None) =
      {| events := []; file := healthy None; raised := Some e' |}.
Proof.
  apply (rejected_setting_ends_loop int_of_digits
           (dict_set "HIGH" "" (defaults "/state" "/log")) ValueError).
  right. right. split; [exists 20; reflexivity | reflexivity].
Defined.

(** * Properties of the state file *)

Section StateFileFacts.

Lemma rstrip_free (s : string) :
  PyStr.free_of Py.is_space s = true -> Py.rstrip s = s.
Proof.
  induction s as [| c s IH]; simpl; [reflexivity |].
  intros H. apply andb_true_iff in H. destruct H as [Hc Hs].
  rewrite (IH Hs). apply negb_true_iff in Hc. rewrite Hc.
  destruct s; reflexivity.
Qed.



(** X18. After [clear_state] the state reads "none" when the delete
    succeeds or there was no file; when the delete fails the failure is
    swallowed and the state reads what it read before. *)
Theorem clear_then_read (f : StateFile) :
  read_state (clear_state f) =
    if removable f then "none" else read_state f.
Proof.
  unfold clear_state, read_state.
  destruct (content f) as [s |] eqn:C.
  - destruct (removable f); simpl; [reflexivity | rewrite C; reflexivity].
  - rewrite C. destruct (removable f); reflexivity.
Qed.

Variables (low high : Z).

(** X19. When the state directory cannot be written to, a cycle that
    notifies sends its notification, raises [OSError] and leaves the state
    file as it was, so the same cycle run again does exactly the same:
    the notification is repeated on every run. *)
Theorem unwritable_state_repeats_notification (pct : Z) (status : string)
    (f : StateFile) :
  writable f = false ->
  action (decide pct status low high (read_state f)) <> None ->
  existsb is_notification (events (notify_step low high pct status f)) = true /\
  raised (notify_step low high pct status f) = Some OSError /\
  notify_step low high pct status (file (notify_step low high pct status f)) =
    notify_step low high pct status f.
Proof.
  intros W A.
  destruct (notify_step_unwritable low high pct status f W A) as (R & F & N).
  rewrite F. auto.
Qed.

(** X20. When the state file cannot be read, a cycle that finds the
    battery charging at or above [high] sends the high notification
    whatever the file holds, "notified_high" too. If the state directory
    can be written to, the write puts a readable file in place, the state
    reads "notified_high" and the next such cycle sends nothing; if not,
    the cycle raises [OSError] and leaves the file as it was. *)
Theorem unreadable_state_notifies_again (pct pct' : Z) (f : StateFile) :
  readable f = false -> high <= pct -> high <= pct' ->
  existsb is_notification
    (events (notify_step low high pct "Charging" f)) = true /\
  (writable f = true ->
   read_state (file (notify_step low high pct "Charging" f)) =
     "notified_high" /\
   events (notify_step low high pct' "Charging"
             (file (notify_step low high pct "Charging" f))) = []) /\
  (writable f = false ->
   raised (notify_step low high pct "Charging" f) = Some OSError /\
   file (notify_step low high pct "Charging" f) = f).
Proof.
  intros R Hp Hp'.
  assert (S : read_state f = "none").
  { unfold read_state. rewrite R. destruct (content f); reflexivity. }
  assert (D : decide pct "Charging" low high "none" = NotifyHigh).
  { apply decide_notify_high_iff. repeat split; [exact Hp | discriminate]. }
  unfold notify_step at 1 2 4 5 6. rewrite S, D. unfold write_state.
  destruct (writable f); simpl.
  - split; [reflexivity |]. split; [| discriminate]. intros _.
    split; [reflexivity |].
    unfold notify_step, decide. simpl.
    rewrite (proj2 (Z.leb_le high pct') Hp'). reflexivity.
  - split; [reflexivity |]. split; [discriminate |]. intros _.
    split; reflexivity.
Qed.

(** X21. When the state file records a notified high crossing and cannot
    be deleted, a reading in the neutral band does not re-arm the
    notification: the state still reads "notified_high" afterwards, and
    the next high crossing is not notified. *)
Theorem failed_delete_suppresses_next_crossing (pct pct' : Z)
    (status : string) (f : StateFile) :
  removable f = false ->
  read_state f = "notified_high" ->
  low < pct < high -> high <= pct' ->
  read_state (file (notify_step low high pct status f)) = "notified_high" /\
  events (notify_step low high pct' "Charging"
            (file (notify_step low high pct status f))) = [].
Proof.
  intros Rm S Hb Hp.
  assert (D : decide pct status low high "notified_high" = ResetState).
  { apply decide_reset_iff. split; [exact Hb | discriminate]. }
  assert (F : file (notify_step low high pct status f) = f).
  { unfold notify_step. rewrite S, D. simpl.
    unfold clear_state. rewrite Rm. destruct (content f); reflexivity. }
  rewrite F. split; [exact S |].
  unfold notify_step, decide. rewrite S. simpl.
  rewrite (proj2 (Z.leb_le high pct') Hp). reflexivity.
Qed.

End StateFileFacts.


(** X19 at 85 percent, charging, on a read-only state directory. *)
Lemma unwritable_state_repeats_notification_witness :
  existsb is_notification
    (events (notify_step 20 80 85 "Charging" (read_only None))) = true /\
  raised (notify_step 20 80 85 "Charging" (read_only None)) = Some OSError /\
  notify_step 20 80 85 "Charging"
    (file (notify_step 20 80 85 "Charging" (read_only None))) =
    notify_step 20 80 85 "Charging" (read_only None).
Proof.
  apply (unwritable_state_repeats_notification 20 80 85 "Charging"
           (read_only None)).
  - reflexivity.
  - discriminate.
Defined.

(** X20 at 85 and then 90 percent on a state file that records the
    crossing but cannot be read, in a writable directory. *)
Lemma unreadable_state_notifies_again_witness :
  existsb is_notification
    (events (notify_step 20 80 85 "Charging"
               {| content := Some "notified_high"; readable := false;
                  writable := true; removable := true |})) = true /\
  read_state (file (notify_step 20 80 85 "Charging"
               {| content := Some "notified_high"; readable := false;
                  writable := true; removable := true |})) = "notified_high" /\
  events (notify_step 20 80 90 "Charging"
            (file (notify_step 20 80 85 "Charging"
               {| content := Some "notified_high"; readable := false;
                  writable := true; removable := true |}))) = [].
Proof.
  destruct (unreadable_state_notifies_again 20 80 85 90
              {| content := Some "notified_high"; readable := false;
                 writable := true; removable := true |})
    as (N & W & _).
  - reflexivity.
  - lia.
  - lia.
  - destruct (W eq_refl) as [S E]. auto.
Defined.

(** X21 at 50 and then 85 percent on a read-only state directory. *)
Lemma failed_delete_suppresses_next_crossing_witness :
  read_state (file (notify_step 20 80 50 "Discharging"
                      (read_only (Some "notified_high")))) = "notified_high" /\
  events (notify_step 20 80 85 "Charging"
            (file (notify_step 20 80 50 "Discharging"
                     (read_only (Some "notified_high"))))) = [].
Proof.
  apply (failed_delete_suppresses_next_crossing 20 80 50 85 "Discharging"
           (read_only (Some "notified_high"))).
  - reflexivity.
  - reflexivity.
  - lia.
  - lia.
Defined.

(** * Properties of the configuration *)

Local Infix "+++" := String.append (right associativity, at level 60).

Section StringFacts.

Lemma append_assoc (a b c : string) : (a +++ b) +++ c = a +++ b +++ c.
Proof. induction a as [| x a IH]; simpl; [| rewrite IH]; reflexivity. Qed.

Lemma append_empty_r (a : string) : a +++ "" = a.
Proof. induction a as [| x a IH]; simpl; [| rewrite IH]; reflexivity. Qed.

Lemma free_of_app (p : ascii -> bool) (a b : string) :
  PyStr.free_of p (a +++ b) = PyStr.free_of p a && PyStr.free_of p b.
Proof.
  induction a as [| x a IH]; simpl; [reflexivity |].
  rewrite IH, andb_assoc. reflexivity.
Qed.

Lemma free_of_weaken (p q : ascii -> bool) (s : string) :
  (forall c, q c = true -> p c = true) ->
  PyStr.free_of p s = true -> PyStr.free_of q s = true.
Proof.
  intros Hpq. induction s as [| x s IH]; simpl; [reflexivity |].
  intros H. apply andb_true_iff in H. destruct H as [Hx Hs].
  rewrite (IH Hs), andb_true_r.
  destruct (q x) eqn:Q; [| reflexivity].
  rewrite (Hpq x Q) in Hx. discriminate.
Qed.

(** White space in front is stripped. *)
Lemma lstrip_spaces (sp s : string) :
  all_space sp = true -> Py.lstrip (sp +++ s) = Py.lstrip s.
Proof.
  unfold all_space. induction sp as [| x sp IH]; simpl; [reflexivity |].
  intros H. apply andb_true_iff in H. destruct H as [Hx Hs].
  rewrite negb_involutive in Hx. rewrite Hx. apply IH. exact Hs.
Qed.

Lemma lstrip_all_space (sp : string) :
  all_space sp = true -> Py.lstrip sp = "".
Proof.
  intros H. rewrite <- (append_empty_r sp). rewrite (lstrip_spaces sp "" H).
  reflexivity.
Qed.

Lemma lstrip_free (s : string) :
  PyStr.free_of Py.is_space s = true -> Py.lstrip s = s.
Proof.
  destruct s as [| c s]; simpl; [reflexivity |].
  intros H. apply andb_true_iff in H. destruct H as [Hc _].
  apply negb_true_iff in Hc. rewrite Hc. reflexivity.
Qed.

Lemma rstrip_all_space (sp : string) :
  all_space sp = true -> Py.rstrip sp = "".
Proof.
  unfold all_space. induction sp as [| x sp IH]; simpl; [reflexivity |].
  intros H. apply andb_true_iff in H. destruct H as [Hx Hs].
  rewrite negb_involutive in Hx. rewrite (IH Hs), Hx. reflexivity.
Qed.

(** White space at the end is stripped. *)
Lemma rstrip_spaces (s sp : string) :
  all_space sp = true -> Py.rstrip (s +++ sp) = Py.rstrip s.
Proof.
  intros H. induction s as [| x s IH]; simpl.
  - apply rstrip_all_space. exact H.
  - rewrite IH. reflexivity.
Qed.

(** Stripping at the end stops at a character that is no white space. *)
Lemma rstrip_anchor (a : string) (c : ascii) (b : string) :
  Py.is_space c = false ->
  Py.rstrip (a +++ String c b) = a +++ String c (Py.rstrip b).
Proof.
  intros Hc. induction a as [| x a IH]; simpl.
  - destruct (Py.rstrip b); [rewrite Hc |]; reflexivity.
  - rewrite IH. destruct a; reflexivity.
Qed.

Lemma split_once_anchor (c : ascii) (a b : string) :
  PyStr.free_of (fun x => Ascii.eqb x c) a = true ->
  PyStr.split_once c (a +++ String c b) = Some (a, b).
Proof.
  induction a as [| x a IH]; simpl.
  - rewrite Ascii.eqb_refl. reflexivity.
  - intros H. apply andb_true_iff in H. destruct H as [Hx Ha].
    apply negb_true_iff in Hx. rewrite Hx, (IH Ha). reflexivity.
Qed.

Lemma split_once_free (c : ascii) (s : string) :
  PyStr.free_of (fun x => Ascii.eqb x c) s = true ->
  PyStr.split_once c s = None.
Proof.
  induction s as [| x s IH]; simpl; [reflexivity |].
  intros H. apply andb_true_iff in H. destruct H as [Hx Hs].
  apply negb_true_iff in Hx. rewrite Hx, (IH Hs). reflexivity.
Qed.

Lemma free_of_lstrip (p : ascii -> bool) (s : string) :
  PyStr.free_of p s = true -> PyStr.free_of p (Py.lstrip s) = true.
Proof.
  induction s as [| x s IH]; simpl; [reflexivity |].
  intros H. destruct (Py.is_space x); [| exact H].
  apply andb_true_iff in H. destruct H as [_ Hs]. apply IH. exact Hs.
Qed.

Lemma free_of_rstrip (p : ascii -> bool) (s : string) :
  PyStr.free_of p s = true -> PyStr.free_of p (Py.rstrip s) = true.
Proof.
  induction s as [| x s IH]; simpl; [reflexivity |].
  intros H. apply andb_true_iff in H. destruct H as [Hx Hs].
  specialize (IH Hs).
  destruct (Py.rstrip s) as [| y t].
  - destruct (Py.is_space x); simpl; [reflexivity |].
    rewrite Hx. reflexivity.
  - simpl in *. rewrite Hx. exact IH.
Qed.

(** Stripping a set of characters leaves a string without them alone. *)
Lemma strip_chars_free (p : ascii -> bool) (s : string) :
  PyStr.free_of p s = true -> PyStr.strip_chars p s = s.
Proof.
  intros H. unfold PyStr.strip_chars.
  assert (L : PyStr.lstrip_chars p s = s).
  { destruct s as [| c s]; simpl in *; [reflexivity |].
    apply andb_true_iff in H. destruct H as [Hc _].
    apply negb_true_iff in Hc. rewrite Hc. reflexivity. }
  rewrite L. clear L.
  induction s as [| c s IH]; simpl; [reflexivity |].
  simpl in H. apply andb_true_iff in H. destruct H as [Hc Hs].
  rewrite (IH Hs). apply negb_true_iff in Hc. rewrite Hc.
  destruct s; reflexivity.
Qed.

Lemma rstrip_chars_snoc (p : ascii -> bool) (s : string) (c : ascii) :
  PyStr.free_of p s = true -> p c = true ->
  PyStr.rstrip_chars p (s +++ String c "") = s.
Proof.
  intros H Hc. induction s as [| x s IH]; simpl.
  - rewrite Hc. reflexivity.
  - simpl in H. apply andb_true_iff in H. destruct H as [Hx Hs].
    rewrite (IH Hs). apply negb_true_iff in Hx. rewrite Hx.
    destruct s; reflexivity.
Qed.

(** A pair of quotes around a string without that quote is stripped. *)
Lemma strip_chars_quoted (p : ascii -> bool) (s : string) (c : ascii) :
  PyStr.free_of p s = true -> p c = true ->
  PyStr.strip_chars p (String c (s +++ String c "")) = s.
Proof.
  intros H Hc. unfold PyStr.strip_chars. simpl. rewrite Hc.
  destruct s as [| x s]; simpl.
  - rewrite Hc. reflexivity.
  - pose proof H as H'. simpl in H'.
    apply andb_true_iff in H'. destruct H' as [Hx _].
    apply negb_true_iff in Hx. rewrite Hx.
    exact (rstrip_chars_snoc p (String x s) c H Hc).
Qed.

(** A string that neither begins nor ends with a character of the set is
    left alone. *)
Lemma strip_chars_inside (p : ascii -> bool) (s : string) (c : ascii) :
  p c = false ->
  PyStr.strip_chars p (String c (s +++ String c "")) =
  String c (s +++ String c "").
Proof.
  intros Hc. unfold PyStr.strip_chars. simpl. rewrite Hc.
  assert (R : forall t, PyStr.rstrip_chars p (t +++ String c "") =
                        t +++ String c "").
  { induction t as [| x t IH]; simpl.
    - rewrite Hc. reflexivity.
    - rewrite IH. destruct t; reflexivity. }
  change (String c (s +++ String c "")) with ((String c s) +++ String c "").
  apply R.
Qed.

End StringFacts.

Section EnvFile.

Lemma rstrip_keeps_word (a v : string) :
  PyStr.free_of Py.is_space v = true -> Py.str_truthy v = true ->
  Py.rstrip (a +++ v) = a +++ v.
Proof.
  destruct v as [| c v]; [discriminate |]. intros H _.
  simpl in H. apply andb_true_iff in H. destruct H as [Hc Hv].
  apply negb_true_iff in Hc.
  rewrite (rstrip_anchor a c v Hc), (rstrip_free v Hv). reflexivity.
Qed.

(** Stripping a word with white space around it gives the word. *)
Lemma strip_padded (sp v sp' : string) :
  all_space sp = true -> all_space sp' = true ->
  PyStr.free_of Py.is_space v = true ->
  Py.strip (Py.rstrip (sp +++ v +++ sp')) = v.
Proof.
  intros Hsp Hsp' Hv.
  rewrite <- append_assoc, (rstrip_spaces (sp +++ v) sp' Hsp').
  destruct (Py.str_truthy v) eqn:T.
  - rewrite (rstrip_keeps_word sp v Hv T). unfold Py.strip.
    rewrite (lstrip_spaces sp v Hsp), (lstrip_free v Hv).
    apply rstrip_free. exact Hv.
  - destruct v; [| discriminate].
    rewrite append_empty_r, (rstrip_all_space sp Hsp). reflexivity.
Qed.

Lemma spaces_have_no_equals (sp : string) :
  all_space sp = true ->
  PyStr.free_of (fun x => Ascii.eqb x PyStr.equals) sp = true.
Proof.
  apply free_of_weaken. intros c E.
  apply Ascii.eqb_eq in E. subst c. reflexivity.
Qed.

(** The quotes [load_env_file] removes around a value. *)
Lemma unquote (q v : string) :
  plain v = true ->
  q = "" \/ q = String PyStr.dquote "" \/ q = String PyStr.squote "" ->
  PyStr.strip_chars (Ascii.eqb PyStr.squote)
    (PyStr.strip_chars (Ascii.eqb PyStr.dquote) (q +++ v +++ q)) = v.
Proof.
  intros Hv Hq.
  assert (Hd : PyStr.free_of (Ascii.eqb PyStr.dquote) v = true).
  { revert Hv. apply free_of_weaken. intros c E. rewrite E.
    rewrite orb_true_r. reflexivity. }
  assert (Hs : PyStr.free_of (Ascii.eqb PyStr.squote) v = true).
  { revert Hv. apply free_of_weaken. intros c E. rewrite E.
    rewrite orb_true_r. reflexivity. }
  destruct Hq as [-> | [-> | ->]].
  - simpl. rewrite append_empty_r.
    rewrite (strip_chars_free _ v Hd). apply strip_chars_free. exact Hs.
  - change (String PyStr.dquote "" +++ v +++ String PyStr.dquote "")
      with (String PyStr.dquote (v +++ String PyStr.dquote "")).
    rewrite (strip_chars_quoted _ v PyStr.dquote Hd eq_refl).
    apply strip_chars_free. exact Hs.
  - change (String PyStr.squote "" +++ v +++ String PyStr.squote "")
      with (String PyStr.squote (v +++ String PyStr.squote "")).
    rewrite (strip_chars_inside _ v PyStr.squote eq_refl).
    apply strip_chars_quoted; [exact Hs | reflexivity].
Qed.

Lemma quoted_has_no_space (q v : string) :
  plain v = true ->
  q = "" \/ q = String PyStr.dquote "" \/ q = String PyStr.squote "" ->
  PyStr.free_of Py.is_space (q +++ v +++ q) = true.
Proof.
  intros Hv Hq.
  assert (Hs : PyStr.free_of Py.is_space v = true).
  { revert Hv. apply free_of_weaken. intros c E. rewrite E. reflexivity. }
  rewrite !free_of_app, Hs.
  destruct Hq as [-> | [-> | ->]]; reflexivity.
Qed.

(** X22. A line [KEY = VALUE] of the env file sets KEY to VALUE: white
    space around the line, the key and the value is dropped, and so is one
    pair of double or single quotes around the value. KEY is any
    non-empty word without white space or "=" that does not begin with
    "#"; VALUE is any word without white space or quotes. *)
Theorem env_line_sets_item (sp1 sp2 sp3 sp4 k v q : string) :
  all_space sp1 = true -> all_space sp2 = true ->
  all_space sp3 = true -> all_space sp4 = true ->
  Py.str_truthy k = true ->
  PyStr.free_of Py.is_space k = true ->
  PyStr.free_of (fun x => Ascii.eqb x PyStr.equals) k = true ->
  PyStr.startswith PyStr.hash k = false ->
  plain v = true ->
  q = "" \/ q = String PyStr.dquote "" \/ q = String PyStr.squote "" ->
  parse_env_line
    (sp1 +++ k +++ sp2 +++ "=" +++ sp3 +++ (q +++ v +++ q) +++ sp4) =
  Some (k, v).
Proof.
  intros H1 H2 H3 H4 Tk Sk Ek Hk Hv Hq.
  pose proof (quoted_has_no_space q v Hv Hq) as Sval.
  set (val := q +++ v +++ q) in *.
  assert (Hstrip :
    Py.strip (sp1 +++ k +++ sp2 +++ "=" +++ sp3 +++ val +++ sp4) =
    (k +++ sp2) +++ String PyStr.equals (Py.rstrip (sp3 +++ val +++ sp4))).
  { unfold Py.strip. rewrite (lstrip_spaces sp1 _ H1).
    assert (L : forall t, Py.lstrip (k +++ t) = k +++ t).
    { intros t. destruct k as [| c k']; [discriminate |]. simpl in *.
      apply andb_true_iff in Sk. destruct Sk as [Sc _].
      apply negb_true_iff in Sc. rewrite Sc. reflexivity. }
    rewrite L, <- append_assoc.
    change ("=" +++ sp3 +++ val +++ sp4)
      with (String PyStr.equals (sp3 +++ val +++ sp4)).
    apply rstrip_anchor. reflexivity. }
  unfold parse_env_line. cbv zeta. rewrite Hstrip.
  assert (Hne : forall t, Py.str_truthy ((k +++ sp2) +++ t) = true /\
                          PyStr.startswith PyStr.hash ((k +++ sp2) +++ t) = false).
  { intros t. destruct k as [| c k']; [discriminate |]. simpl in *. auto. }
  destruct (Hne (String PyStr.equals (Py.rstrip (sp3 +++ val +++ sp4))))
    as [Ht Hh].
  rewrite Ht, Hh. simpl negb. cbn [orb].
  rewrite split_once_anchor
    by (rewrite free_of_app, Ek, (spaces_have_no_equals sp2 H2); reflexivity).
  rewrite (strip_padded sp3 val sp4 H3 H4 Sval).
  assert (Hkey : Py.strip (k +++ sp2) = k).
  { unfold Py.strip.
    assert (L : Py.lstrip (k +++ sp2) = k +++ sp2).
    { destruct k as [| c k']; [discriminate |]. simpl in *.
      apply andb_true_iff in Sk. destruct Sk as [Sc _].
      apply negb_true_iff in Sc. rewrite Sc. reflexivity. }
    rewrite L, (rstrip_spaces k sp2 H2). apply rstrip_free. exact Sk. }
  rewrite Hkey. unfold val. rewrite (unquote q v Hv Hq). reflexivity.
Qed.

(** X22 on a padded line with a double-quoted value. *)
Lemma env_line_sets_item_witness :
  parse_env_line
    ("  " +++ "HIGH" +++ " " +++ "=" +++ " " +++
     (String PyStr.dquote "" +++ "90" +++ String PyStr.dquote "") +++ "  ") =
  Some ("HIGH", "90").
Proof.
  apply (env_line_sets_item "  " " " " " "  " "HIGH" "90"
           (String PyStr.dquote "")); try reflexivity.
  right; left; reflexivity.
Defined.

(** X23. A line of the env file sets nothing when it is blank, when its
    first character after white space is "#", or when it has no "=". *)
Theorem env_line_ignored (line : string) :
  all_space line = true \/
  (exists sp rest, all_space sp = true /\ line = sp +++ String PyStr.hash rest) \/
  PyStr.free_of (fun x => Ascii.eqb x PyStr.equals) line = true ->
  parse_env_line line = None.
Proof.
  intros [Hb | [(sp & rest & Hsp & ->) | He]]; unfold parse_env_line; cbv zeta.
  - unfold Py.strip. rewrite (lstrip_all_space line Hb). reflexivity.
  - unfold Py.strip. rewrite (lstrip_spaces sp _ Hsp). simpl.
    destruct (Py.rstrip rest); reflexivity.
  - destruct (negb (Py.str_truthy (Py.strip line))
              || PyStr.startswith PyStr.hash (Py.strip line)); [reflexivity |].
    rewrite split_once_free; [reflexivity |].
    unfold Py.strip. apply free_of_rstrip, free_of_lstrip. exact He.
Qed.

(** X23 on an indented comment that contains an assignment. *)
Lemma env_line_ignored_witness :
  parse_env_line "   # HIGH=90" = None.
Proof.
  apply (env_line_ignored "   # HIGH=90").
  right; left. exists "   ", " HIGH=90". split; reflexivity.
Defined.

End EnvFile.

Section DictFacts.

Lemma dict_get_set (k k' v : string) (d : Dict) :
  dict_get k (dict_set k' v d) =
    if String.eqb k' k then Some v else dict_get k d.
Proof.
  induction d as [| [k0 v0] d IH]; simpl.
  - reflexivity.
  - destruct (String.eqb k0 k') eqn:E0; simpl.
    + apply String.eqb_eq in E0. subst k0.
      destruct (String.eqb k' k); reflexivity.
    + rewrite IH. destruct (String.eqb k0 k) eqn:E1; [| reflexivity].
      apply String.eqb_eq in E1. subst k0. rewrite String.eqb_sym, E0.
      reflexivity.
Qed.

Lemma dict_set_keys (k k' v : string) (d : Dict) :
  In k (map fst (dict_set k' v d)) <-> k = k' \/ In k (map fst d).
Proof.
  induction d as [| [k0 v0] d IH]; simpl.
  - intuition congruence.
  - destruct (String.eqb k0 k') eqn:E0; simpl.
    + apply String.eqb_eq in E0. subst k0. intuition congruence.
    + rewrite IH. intuition congruence.
Qed.

Lemma dict_set_nodup (k v : string) (d : Dict) :
  NoDup (map fst d) -> NoDup (map fst (dict_set k v d)).
Proof.
  induction d as [| [k0 v0] d IH]; simpl; intros N.
  - constructor; [intros [] | constructor].
  - inversion N as [| x xs Hx Hxs]; subst.
    destruct (String.eqb k0 k) eqn:E0; simpl.
    + constructor; assumption.
    + constructor; [| apply IH; exact Hxs].
      rewrite dict_set_keys. intros [-> | H]; [| contradiction].
      rewrite String.eqb_refl in E0. discriminate.
Qed.

Lemma dict_get_absent (k : string) (d : Dict) :
  ~ In k (map fst d) -> dict_get k d = None.
Proof.
  induction d as [| [k0 v0] d IH]; simpl; intros H; [reflexivity |].
  destruct (String.eqb k0 k) eqn:E.
  - apply String.eqb_eq in E. tauto.
  - apply IH. tauto.
Qed.

(** [d.update(e)] read back: the items of [e] win over those of [d]. *)
Lemma dict_get_update (k : string) (e : Dict) :
  NoDup (map fst e) ->
  forall d : Dict,
    dict_get k (dict_update d e) =
      match dict_get k e with
      | Some v => Some v
      | None => dict_get k d
      end.
Proof.
  unfold dict_update.
  induction e as [| [k1 v1] e IH]; simpl; intros N d; [reflexivity |].
  inversion N as [| x xs Hx Hxs]; subst.
  rewrite (IH Hxs), dict_get_set.
  destruct (String.eqb k1 k) eqn:E; [| reflexivity].
  apply String.eqb_eq in E. subst k1.
  rewrite (dict_get_absent k e Hx). reflexivity.
Qed.

Lemma dict_get_setdefault (k k' v : string) (d : Dict) :
  dict_get k (setdefault k' v d) =
    match dict_get k d with
    | Some x => Some x
    | None => if String.eqb k' k then Some v else None
    end.
Proof.
  unfold setdefault. destruct (dict_get k' d) as [x |] eqn:G.
  - destruct (dict_get k d) eqn:G'; [reflexivity |].
    destruct (String.eqb k' k) eqn:E; [| reflexivity].
    apply String.eqb_eq in E. subst k'. congruence.
  - rewrite dict_get_set.
    destruct (String.eqb k' k) eqn:E.
    + apply String.eqb_eq in E. subst k'. rewrite G. reflexivity.
    + destruct (dict_get k d); reflexivity.
Qed.

(** A run of [setdefault] read back: what is present stays, and of the
    defaults the first for a key counts. *)
Lemma dict_get_setdefaults (k : string) (ds : Dict) :
  forall c : Dict,
    dict_get k (fold_left (fun c kv => setdefault (fst kv) (snd kv) c) ds c) =
      match dict_get k c with
      | Some x => Some x
      | None => dict_get k ds
      end.
Proof.
  induction ds as [| [k1 v1] ds IH]; simpl; intros c.
  - destruct (dict_get k c); reflexivity.
  - rewrite IH, dict_get_setdefault.
    destruct (dict_get k c); [reflexivity |].
    destruct (String.eqb k1 k); reflexivity.
Qed.

Lemma env_step_nodup (env : Dict) (line : string) :
  NoDup (map fst env) -> NoDup (map fst (env_step env line)).
Proof.
  unfold env_step. destruct (parse_env_line line) as [[k v] |]; [| auto].
  apply dict_set_nodup.
Qed.

Lemma load_lines_nodup (ls : list string) :
  forall env : Dict,
    NoDup (map fst env) -> NoDup (map fst (fold_left env_step ls env)).
Proof.
  induction ls as [| l ls IH]; simpl; intros env N; [exact N |].
  apply IH, env_step_nodup, N.
Qed.

Lemma later_lines_keep (k : string) (ls : list string) :
  Forall (fun l => forall v, parse_env_line l <> Some (k, v)) ls ->
  forall env : Dict,
    dict_get k (fold_left env_step ls env) = dict_get k env.
Proof.
  induction ls as [| l ls IH]; simpl; intros F env; [reflexivity |].
  inversion F as [| x xs Hl Hls]; subst.
  rewrite (IH Hls). unfold env_step.
  destruct (parse_env_line l) as [[k' v'] |] eqn:P; [| reflexivity].
  rewrite dict_get_set.
  destruct (String.eqb k' k) eqn:E; [| reflexivity].
  apply String.eqb_eq in E. subst k'. exfalso. exact (Hl v' eq_refl).
Qed.

End DictFacts.

Section Configuration.

(** X24. In an env file the last line that sets a key wins: when a line
    sets [k] to [v] and no later line sets [k], the loaded items have [v]
    for [k], whatever came before. *)
Theorem last_assignment_wins (before after : list string) (line k v : string) :
  parse_env_line line = Some (k, v) ->
  Forall (fun l => forall v', parse_env_line l <> Some (k, v')) after ->
  exists env,
    load_env_file (Lines (before ++ line :: after)) = Return env /\
    dict_get k env = Some v.
Proof.
  intros P F. eexists. split; [reflexivity |].
  rewrite fold_left_app. simpl.
  rewrite (later_lines_keep k after F). unfold env_step. rewrite P.
  rewrite dict_get_set, String.eqb_refl. reflexivity.
Qed.

Variables (state_dir logfile : string) (environ : Dict)
          (files : string -> EnvFile).

Lemma file_items_nodup (env_path : option string) :
  NoDup (map fst (file_items files env_path)).
Proof.
  unfold file_items.
  destruct env_path as [p |]; [| constructor].
  destruct (Py.str_truthy p); [| constructor].
  destruct (files p) as [| e | ls]; simpl; try constructor.
  apply load_lines_nodup. constructor.
Qed.

Lemma load_config_returns (env_path : option string) (cfg : Dict) :
  load_config state_dir logfile environ files env_path = Return cfg ->
  cfg = fold_left (fun c kv => setdefault (fst kv) (snd kv) c)
          (defaults state_dir logfile)
          (dict_update environ (file_items files env_path)).
Proof.
  unfold load_config, file_items.
  destruct env_path as [p |];
    [destruct (Py.str_truthy p);
     [destruct (load_env_file (files p)) as [e | env]; cbn [bind];
      [discriminate |] |] |];
    cbn [bind]; intros H; injection H as <-; reflexivity.
Qed.

(** X25. The precedence of [load_config]: a key reads first from the env
    file, then from the process environment, then from the built-in
    defaults (HIGH 80, LOW 20, POLL_INTERVAL 60, the state directory, the
    log file, and empty Telegram credentials); any other key is absent. *)
Theorem load_config_precedence (env_path : option string) (cfg : Dict)
    (k : string) :
  load_config state_dir logfile environ files env_path = Return cfg ->
  dict_get k cfg =
    match dict_get k (file_items files env_path) with
    | Some v => Some v
    | None =>
        match dict_get k environ with
        | Some v => Some v
        | None => dict_get k (defaults state_dir logfile)
        end
    end.
Proof.
  intros H. rewrite (load_config_returns env_path cfg H).
  rewrite dict_get_setdefaults.
  rewrite (dict_get_update k _ (file_items_nodup env_path)).
  destruct (dict_get k (file_items files env_path)); reflexivity.
Qed.

(** X26. [load_config] raises exactly when a non-empty path is given and
    reading that file fails with something other than a missing file: a
    missing env file is not an error, an unreadable one is. *)
Theorem load_config_raises_iff (env_path : option string) (e : exn) :
  load_config state_dir logfile environ files env_path = Raise e <->
  exists p, env_path = Some p /\ Py.str_truthy p = true /\
            files p = Unreadable e.
Proof.
  unfold load_config. split.
  - destruct env_path as [p |]; simpl; [| discriminate].
    destruct (Py.str_truthy p) eqn:T; simpl; [| discriminate].
    destruct (files p) as [| e' | ls] eqn:F; simpl; try discriminate.
    intros H; inversion H; subst. exists p. auto.
  - intros (p & -> & T & F). rewrite T, F. reflexivity.
Qed.

End Configuration.

(** X24 on a file that sets HIGH twice. *)
Lemma last_assignment_wins_witness :
  exists env,
    load_env_file (Lines (["HIGH=70"; "LOW=10"] ++ "HIGH=90" :: ["# HIGH=95"]))
      = Return env /\
    dict_get "HIGH" env = Some "90".
Proof.
  apply (last_assignment_wins ["HIGH=70"; "LOW=10"] ["# HIGH=95"]
           "HIGH=90" "HIGH" "90").
  - reflexivity.
  - constructor; [intros v'; discriminate | constructor].
Defined.

(** X25 for HIGH, set in the environment and again in the env file. *)
Lemma load_config_precedence_witness :
  exists cfg,
    load_config "/state" "/log" [("HIGH", "85")]
      (fun _ => Lines ["HIGH=90"]) (Some "env") = Return cfg /\
    dict_get "HIGH" cfg = Some "90".
Proof.
  eexists. split; [reflexivity |].
  rewrite (load_config_precedence "/state" "/log" [("HIGH", "85")]
             (fun _ => Lines ["HIGH=90"]) (Some "env") _ "HIGH" eq_refl).
  reflexivity.
Defined.

(** * Properties of the command line *)

Section CommandLine.

Lemma parse_args_app_bounded (n : nat) :
  forall (pre rest : list string) (o o' : Options),
    (List.length pre <= n)%nat ->
    parse_args o pre = Parsed o' ->
    parse_args o (pre ++ rest) = parse_args o' rest.
Proof.
  induction n as [| n IH]; intros pre rest o o' Hlen H.
  - destruct pre; [| simpl in Hlen; lia].
    simpl in *. inversion H; subst. reflexivity.
  - destruct pre as [| a pre]; [simpl in *; inversion H; subst; reflexivity |].
    simpl in Hlen. cbn [parse_args app] in *.
    destruct (String.eqb a "-h" || String.eqb a "--help"); [discriminate |].
    destruct (String.eqb a "--config").
    { destruct pre as [| p pre]; [discriminate |].
      simpl in Hlen. cbn [app]. apply IH; [lia | exact H]. }
    destruct (String.eqb a "--once"); [apply IH; [lia | exact H] |].
    destruct (String.eqb a "--daemon"); [apply IH; [lia | exact H] |].
    destruct (String.eqb a "--test-high"); [apply IH; [lia | exact H] |].
    destruct (String.eqb a "--test-low"); [apply IH; [lia | exact H] |].
    destruct (String.eqb a "--poll").
    { destruct pre as [| p pre]; [discriminate |].
      simpl in Hlen. cbn [app]. apply IH; [lia | exact H]. }
    destruct (String.eqb a "--verbose"); [apply IH; [lia | exact H] |].
    discriminate.
Qed.

(** X27. The argument loop reads left to right without looking back: when
    a list of arguments parses to some options, any arguments appended
    are parsed from those options on. *)
Theorem parse_args_app (pre rest : list string) (o o' : Options) :
  parse_args o pre = Parsed o' ->
  parse_args o (pre ++ rest) = parse_args o' rest.
Proof. apply (parse_args_app_bounded (List.length pre)). lia. Qed.

Lemma parse_args_test_mode (n : nat) :
  forall (args : list string) (o o' : Options),
    (List.length args <= n)%nat ->
    test_mode_once o ->
    parse_args o args = Parsed o' ->
    test_mode_once o'.
Proof.
  induction n as [| n IH]; intros args o o' Hlen I H.
  - destruct args; [| simpl in Hlen; lia].
    simpl in H. inversion H; subst. exact I.
  - destruct args as [| a args]; [simpl in H; inversion H; subst; exact I |].
    simpl in Hlen. cbn [parse_args] in H.
    destruct (String.eqb a "-h" || String.eqb a "--help"); [discriminate |].
    destruct (String.eqb a "--config").
    { destruct args as [| p args]; [discriminate |]. simpl in Hlen.
      eapply IH; [| | exact H]; [lia | exact I]. }
    destruct (String.eqb a "--once").
    { eapply IH; [| | exact H]; [lia |].
      destruct I as [I | [_ I]]; [left; exact I | right; split; [reflexivity | exact I]]. }
    destruct (String.eqb a "--daemon");
      [eapply IH; [| | exact H]; [lia | exact I] |].
    destruct (String.eqb a "--test-high").
    { eapply IH; [| | exact H]; [lia |]. right. split; [reflexivity | left; reflexivity]. }
    destruct (String.eqb a "--test-low").
    { eapply IH; [| | exact H]; [lia |]. right. split; [reflexivity | right; reflexivity]. }
    destruct (String.eqb a "--poll").
    { destruct args as [| p args]; [discriminate |]. simpl in Hlen.
      eapply IH; [| | exact H]; [lia | exact I]. }
    destruct (String.eqb a "--verbose");
      [eapply IH; [| | exact H]; [lia | exact I] |].
    discriminate.
Qed.

Variable default_env_path : string.

(** X28. Whatever the command line, a test mode never reaches the daemon
    loop: when the arguments parse and a forced reading is set, it is
    "force-high" or "force-low" and [once] is set with it, also when
    [--daemon] is given. *)
Theorem test_mode_runs_once (argv : list string) (o : Options) :
  main_args default_env_path argv = Parsed o ->
  forced o = None \/
  (once o = true /\
   (forced o = Some "force-high" \/ forced o = Some "force-low")).
Proof.
  unfold main_args. intros H.
  apply (parse_args_test_mode (List.length (tl argv)) (tl argv)
           (initial_options default_env_path) o); [lia | | exact H].
  left. reflexivity.
Qed.

Lemma unknown_option_rejected (a : string) (o : Options) (rest : list string) :
  known_option a = false -> parse_args o (a :: rest) = UnknownOption a.
Proof.
  unfold known_option. simpl. intros K.
  repeat (apply orb_false_iff in K; destruct K as [?E K]).
  cbn [parse_args]. rewrite E, E0, E1, E2, E3, E4, E5, E6, E7. reflexivity.
Qed.

(** X29. After arguments that parse, [-h] or [--help] ends the loop with
    the help text whatever follows, an argument that is no known option
    ends it as unknown (exit code 2), and [--config] or [--poll] as the
    last argument runs past the end of [argv]. *)
Theorem after_valid_arguments (prog : string) (pre rest : list string)
    (o : Options) (a : string) :
  main_args default_env_path (prog :: pre) = Parsed o ->
  main_args default_env_path (prog :: pre ++ "-h" :: rest) = ShowHelp /\
  main_args default_env_path (prog :: pre ++ "--help" :: rest) = ShowHelp /\
  (known_option a = false ->
   main_args default_env_path (prog :: pre ++ a :: rest) = UnknownOption a) /\
  main_args default_env_path (prog :: pre ++ ["--config"]) = MissingValue /\
  main_args default_env_path (prog :: pre ++ ["--poll"]) = MissingValue.
Proof.
  unfold main_args. cbn [tl]. intros H.
  rewrite !(parse_args_app_bounded (List.length pre) pre _ _ o (le_n _) H).
  repeat split; try reflexivity.
  apply unknown_option_rejected.
Qed.

End CommandLine.

(** X27 on [--once --verbose] followed by [--poll 5]. *)
Lemma parse_args_app_witness :
  parse_args (initial_options "env") (["--once"; "--verbose"] ++ ["--poll"; "5"]) =
  parse_args {| env_path := "env"; once := true; forced := None;
                daemon := false; verbose := true; override_poll := None |}
    ["--poll"; "5"].
Proof.
  apply (parse_args_app ["--once"; "--verbose"] ["--poll"; "5"]
           (initial_options "env")).
  reflexivity.
Defined.

(** X28 on [--test-low --daemon]. *)
Lemma test_mode_runs_once_witness :
  exists o,
    main_args "env" ["battery_daemon.py"; "--test-low"; "--daemon"] = Parsed o /\
    (forced o = None \/
     (once o = true /\
      (forced o = Some "force-high" \/ forced o = Some "force-low"))).
Proof.
  eexists. split; [reflexivity |].
  apply (test_mode_runs_once "env"
           ["battery_daemon.py"; "--test-low"; "--daemon"]).
  reflexivity.
Defined.

(** X29 after [--config my.env]. *)
Lemma after_valid_arguments_witness :
  main_args "env" ("battery_daemon.py" :: ["--config"; "my.env"] ++ "-h" :: []) = ShowHelp /\
  main_args "env" ("battery_daemon.py" :: ["--config"; "my.env"] ++ "--help" :: []) = ShowHelp /\
  (known_option "--quiet" = false ->
   main_args "env" ("battery_daemon.py" :: ["--config"; "my.env"] ++ "--quiet" :: []) =
     UnknownOption "--quiet") /\
  main_args "env" ("battery_daemon.py" :: ["--config"; "my.env"] ++ ["--config"]) =
    MissingValue /\
  main_args "env" ("battery_daemon.py" :: ["--config"; "my.env"] ++ ["--poll"]) =
    MissingValue.
Proof.
  apply (after_valid_arguments "env" "battery_daemon.py"
           ["--config"; "my.env"] []
           {| env_path := "my.env"; once := false; forced := None;
              daemon := false; verbose := false; override_poll := None |}
           "--quiet").
  reflexivity.
Defined.
